(** * orderbot-sync: order synchronisation from a paginated API into a row store

    A shallow embedding of [orderbot-sync.py].  The script fetches the orders
    of the current year from a paginated REST endpoint ([squarespace_items],
    [squarespace_orders_json]) and writes one row per line item into a
    PostgreSQL table ([insert_items]); [main] and [handler] compose the two.

    The embedding keeps the shape of the script:
    - Python values (what [response.json()] yields, and what the functions
      return) are the inductive type [value]; a dict is an association list
      in insertion order, read from the left.  Strings stand for sequences of
      code points below 256; numbers that are not integers are left out.
    - Python exceptions are the type [exn]; a computation returns [Ret] or
      [Raise], and the state reached when an exception is raised is kept.
    - The collaborators are part of the model's [host] (environment, clock,
      remote API, database server and its table) and [state] (issued
      requests, logging calls, printed lines, the table and the open
      database session). *)

From Stdlib Require Import ZArith String Ascii List Bool Lia DecimalString.
From stdpp Require Import base gmap strings list.

Local Open Scope string_scope.
Local Open Scope Z_scope.
Local Open Scope list_scope.

#[local] Set Warnings "-register-all".

(** ** Python values *)

Inductive value : Type :=
| VNone
| VBool (b : bool)
| VInt (n : Z)
| VStr (s : string)
| VList (xs : list value)
| VDict (kvs : list (string * value)).

(** Induction over values that reaches into lists and dicts. *)
Section ValueInduction.

Variable P : value -> Prop.
Hypothesis HNone : P VNone.
Hypothesis HBool : forall b, P (VBool b).
Hypothesis HInt : forall n, P (VInt n).
Hypothesis HStr : forall s, P (VStr s).
Hypothesis HList : forall xs, List.Forall P xs -> P (VList xs).
Hypothesis HDict :
  forall kvs, List.Forall (fun kv : string * value => P (snd kv)) kvs -> P (VDict kvs).

Fixpoint value_nested_ind (v : value) : P v :=
  match v with
  | VNone => HNone
  | VBool b => HBool b
  | VInt n => HInt n
  | VStr s => HStr s
  | VList xs =>
      HList xs
        ((fix each (l : list value) : List.Forall P l :=
            match l with
            | [] => @List.Forall_nil _ P
            | x :: rest =>
                @List.Forall_cons _ P x rest (value_nested_ind x) (each rest)
            end) xs)
  | VDict kvs =>
      HDict kvs
        ((fix each (l : list (string * value))
            : List.Forall (fun kv : string * value => P (snd kv)) l :=
            match l with
            | [] => @List.Forall_nil _ _
            | kv :: rest =>
                @List.Forall_cons _ _ kv rest (value_nested_ind (snd kv)) (each rest)
            end) kvs)
  end.

End ValueInduction.

Inductive exn : Type :=
| TypeError
| KeyError (key : string)
| ValueError
| UnboundLocalError (name : string)
| RecursionError
| HTTPError (status : Z)
| ConnectionError
| JSONDecodeError
| ProgrammingError
| DataError
| UniqueViolation
| NotNullViolation
| InFailedSqlTransaction
| InterfaceError
| KeyboardInterrupt.

Inductive result (A : Type) : Type :=
| Ret (a : A)
| Raise (e : exn).

Arguments Ret {A} a.
Arguments Raise {A} e.

Definition rbind {A B} (r : result A) (k : A -> result B) : result B :=
  match r with
  | Ret a => k a
  | Raise e => Raise e
  end.

Fixpoint rmap {A B} (f : A -> result B) (xs : list A) : result (list B) :=
  match xs with
  | [] => Ret []
  | x :: rest =>
      rbind (f x) (fun y => rbind (rmap f rest) (fun ys => Ret (y :: ys)))
  end.

(** *** Truth value, subscription, membership, iteration *)

(** [bool(v)]. *)
Definition truthy (v : value) : bool :=
  match v with
  | VNone => false
  | VBool b => b
  | VInt n => negb (Z.eqb n 0)
  | VStr s => negb (String.eqb s EmptyString)
  | VList xs => match xs with [] => false | _ => true end
  | VDict kvs => match kvs with [] => false | _ => true end
  end.

Fixpoint assoc (k : string) (kvs : list (string * value)) : option value :=
  match kvs with
  | [] => None
  | (k', v) :: rest => if String.eqb k k' then Some v else assoc k rest
  end.

(** [v[k]] for a string [k]: a lookup on a dict, a type error elsewhere. *)
Definition subscript (v : value) (k : string) : result value :=
  match v with
  | VDict kvs =>
      match assoc k kvs with
      | Some x => Ret x
      | None => Raise (KeyError k)
      end
  | _ => Raise TypeError
  end.

Definition is_str (k : string) (v : value) : bool :=
  match v with
  | VStr s => String.eqb k s
  | _ => false
  end.

(** [k in v] for a string [k]. *)
Definition contains (k : string) (v : value) : result bool :=
  match v with
  | VDict kvs => Ret (match assoc k kvs with Some _ => true | None => false end)
  | VList xs => Ret (existsb (is_str k) xs)
  | VStr s => Ret (match String.index 0 k s with Some _ => true | None => false end)
  | _ => Raise TypeError
  end.

Fixpoint chars (s : string) : list value :=
  match s with
  | EmptyString => []
  | String c rest => VStr (String c EmptyString) :: chars rest
  end.

(** The elements a [for] loop over [v] visits. *)
Definition iterate (v : value) : result (list value) :=
  match v with
  | VList xs => Ret xs
  | VDict kvs => Ret (map (fun kv => VStr (fst kv)) kvs)
  | VStr s => Ret (chars s)
  | _ => Raise TypeError
  end.

(** [xs + v] for a list [xs]. *)
Definition list_add (xs : list value) (v : value) : result value :=
  match v with
  | VList ys => Ret (VList (xs ++ ys))
  | _ => Raise TypeError
  end.

(** *** [json.dumps] *)

Definition dquote : string := String (ascii_of_nat 34) EmptyString.
Definition backslash : string := String (ascii_of_nat 92) EmptyString.

Definition hex_digit (n : nat) : string :=
  String (ascii_of_nat (if Nat.ltb n 10 then 48 + n else 87 + n)) EmptyString.

Definition escape_char (c : ascii) : string :=
  let n := nat_of_ascii c in
  if Nat.eqb n 34 then backslash +:+ dquote
  else if Nat.eqb n 92 then backslash +:+ backslash
  else if Nat.eqb n 8 then backslash +:+ "b"
  else if Nat.eqb n 12 then backslash +:+ "f"
  else if Nat.eqb n 10 then backslash +:+ "n"
  else if Nat.eqb n 13 then backslash +:+ "r"
  else if Nat.eqb n 9 then backslash +:+ "t"
  else if (Nat.leb 32 n && Nat.leb n 126)%bool then String c EmptyString
  else backslash +:+ "u00" +:+ hex_digit (Nat.div n 16) +:+ hex_digit (Nat.modulo n 16).

Fixpoint escape (s : string) : string :=
  match s with
  | EmptyString => EmptyString
  | String c rest => escape_char c +:+ escape rest
  end.

Definition dumps_str (s : string) : string := dquote +:+ escape s +:+ dquote.

Definition dumps_int (n : Z) : string := NilZero.string_of_int (Z.to_int n).

Fixpoint json_dumps (v : value) : string :=
  match v with
  | VNone => "null"
  | VBool true => "true"
  | VBool false => "false"
  | VInt n => dumps_int n
  | VStr s => dumps_str s
  | VList xs =>
      "[" +:+ (fix items (l : list value) : string :=
                 match l with
                 | [] => EmptyString
                 | x :: rest =>
                     match rest with
                     | [] => json_dumps x
                     | _ => json_dumps x +:+ ", " +:+ items rest
                     end
                 end) xs +:+ "]"
  | VDict kvs =>
      "{" +:+ (fix members (l : list (string * value)) : string :=
                 match l with
                 | [] => EmptyString
                 | (k, x) :: rest =>
                     match rest with
                     | [] => dumps_str k +:+ ": " +:+ json_dumps x
                     | _ => dumps_str k +:+ ": " +:+ json_dumps x +:+ ", " +:+ members rest
                     end
                 end) kvs +:+ "}"
  end.

(** The layout of [json.dumps] with its default separators, stated apart
    from the function: the members of an array or of an object are joined
    by a comma and a space, a key and its value by a colon and a space. *)
Fixpoint join (sep : string) (texts : list string) : string :=
  match texts with
  | [] => EmptyString
  | t :: rest =>
      match rest with
      | [] => t
      | _ => t +:+ sep +:+ join sep rest
      end
  end.

Inductive json_text : value -> string -> Prop :=
| json_null : json_text VNone "null"
| json_true : json_text (VBool true) "true"
| json_false : json_text (VBool false) "false"
| json_number n : json_text (VInt n) (NilZero.string_of_int (Z.to_int n))
| json_string s : json_text (VStr s) (dquote +:+ escape s +:+ dquote)
| json_array xs texts :
    Forall2 json_text xs texts ->
    json_text (VList xs) ("[" +:+ join ", " texts +:+ "]")
| json_object kvs texts :
    Forall2 (fun kv t =>
               exists tv, json_text (snd kv) tv
                          /\ t = (dquote +:+ escape (fst kv) +:+ dquote) +:+ ": " +:+ tv)
            kvs texts ->
    json_text (VDict kvs) ("{" +:+ join ", " texts +:+ "}").

(** *** Strings of the standard library *)

(** [str.upper] on the letters a to z. *)
Definition upper_char (c : ascii) : ascii :=
  let n := nat_of_ascii c in
  if (Nat.leb 97 n && Nat.leb n 122)%bool then ascii_of_nat (n - 32) else c.

Fixpoint upper (s : string) : string :=
  match s with
  | EmptyString => EmptyString
  | String c rest => String (upper_char c) (upper rest)
  end.

Fixpoint zeros (n : nat) : string :=
  match n with
  | O => EmptyString
  | S n' => String "0" (zeros n')
  end.

(** A non-negative number in decimal, padded with zeros to [width] digits. *)
Definition pad (width : nat) (n : Z) : string :=
  let digits := dumps_int n in
  zeros (width - String.length digits) +:+ digits.

(** [date(y, m, d).isoformat()] for a day that exists in every year; the
    constructor refuses years outside 1..9999. *)
Definition date_isoformat (y m d : Z) : result string :=
  if (Z.leb 1 y && Z.leb y 9999)%bool
  then Ret (pad 4 y +:+ "-" +:+ pad 2 m +:+ "-" +:+ pad 2 d)
  else Raise ValueError.

(** ** The world the script runs in *)

(** A call of [requests.get]. *)
Record request : Type := Request {
  url : value;
  headers : value;
  params : value
}.

(** What a call of [requests.get] yields: a network-level exception, or a
    response with its status code and the value [response.json()] returns
    ([None] when the body is not JSON), or the interruption of the wait by
    control-C. *)
Inductive outcome : Type :=
| NetworkFailure
| Response (status_code : Z) (body : option value)
| Interrupted.

(** Cells of a stored row: Python values as the database driver adapts them. *)
Inductive sqlval : Type :=
| SNull
| SBool (b : bool)
| SInt (n : Z)
| SText (s : string)
| SArray (xs : list sqlval).

Definition row : Type := list sqlval.

(** The server side of an open connection: the rows inserted since the last
    commit, and whether the current transaction has been aborted. *)
Record session : Type := Session {
  pending : list row;
  failed : bool
}.

Inductive level : Type := CRITICAL | ERROR | WARNING.

(** A formatted line: a literal text, or a text followed by [str(e)]. *)
Inductive message : Type :=
| Msg (text : string)
| MsgExn (text : string) (e : exn).

Record host : Type := Host {
  environ : gmap string string;        (* os.environ *)
  year : Z;                            (* datetime.now().year *)
  recursion_limit : nat;               (* frames left for squarespace_items *)
  remote : list request -> request -> outcome;
                                       (* the API, given the earlier requests *)
  db_connect : string -> option string;(* psycopg2.connect: None when it
                                          succeeds, the error text otherwise *)
  store_key : list sqlval -> result string
                                       (* the table syc_orders, see below *)
}.

(** The declaration of the table [syc_orders] is not part of the repository:
    the host gives what the table makes of a row of the INSERT statement.
    [store_key h r] is the error the server raises for [r] on its own
    account (a value that a column refuses, a null key, a check that
    fails), or else the key under which [r] is stored, once converted to
    the type of the key column and in the form in which the store compares
    keys.  The table has one uniqueness constraint, on that key: a row is
    refused with [UniqueViolation] exactly when its key is in use. *)

Record state : Type := State {
  requests : list request;             (* calls of requests.get, oldest first *)
  log : list (level * message);        (* calls of logging.critical/error/warning *)
  root_handlers : bool;                (* the root logger has a handler *)
  root_level : string;                 (* the level set on the root logger *)
  stdout : list message;               (* calls of print *)
  table : list row;                    (* committed rows of syc_orders *)
  conn : option session                (* the open connection, if any *)
}.

(** ** Computations: state and exceptions *)

Definition M (A : Type) : Type := state -> result A * state.

Definition ret {A} (a : A) : M A := fun s => (Ret a, s).

Definition raise {A} (e : exn) : M A := fun s => (Raise e, s).

Definition bind {A B} (m : M A) (k : A -> M B) : M B := fun s =>
  match m s with
  | (Ret a, s') => k a s'
  | (Raise e, s') => (Raise e, s')
  end.

Definition lift {A} (r : result A) : M A := fun s => (r, s).

(** [try: m  except ...: handler]; the handler answers [None] for an
    exception no [except] clause matches. *)
Definition try_except {A} (m : M A) (handler : exn -> option (M A)) : M A := fun s =>
  match m s with
  | (Ret a, s') => (Ret a, s')
  | (Raise e, s') =>
      match handler e with
      | Some recover => recover s'
      | None => (Raise e, s')
      end
  end.

Notation "x <- m ;; k" := (bind m (fun x => k))
  (at level 100, m at next level, right associativity).
Notation "m ;; k" := (bind m (fun _ => k))
  (at level 100, right associativity).
Notation "x <~ r ;; k" := (rbind r (fun x => k))
  (at level 100, r at next level, right associativity).

(** A [for] loop whose body may raise. *)
Fixpoint for_each {A} (xs : list A) (body : A -> M unit) : M unit :=
  match xs with
  | [] => ret tt
  | x :: rest => body x ;; for_each rest body
  end.

(** *** Logging and printing *)

Definition logging (l : level) (m : message) : M unit := fun s =>
  (Ret tt,
   State (requests s) (log s ++ [(l, m)]) true (root_level s)
         (stdout s) (table s) (conn s)).

Definition level_names : list string :=
  ["CRITICAL"; "FATAL"; "ERROR"; "WARN"; "WARNING"; "INFO"; "DEBUG"; "NOTSET"].

(** [logging.basicConfig(level=name)]: nothing when the root logger is
    already configured; otherwise a handler is installed and the level is
    set, and an unknown level name is a [ValueError]. *)
Definition logging_basicConfig (name : string) : M unit := fun s =>
  if root_handlers s then (Ret tt, s)
  else if existsb (String.eqb name) level_names
  then (Ret tt, State (requests s) (log s) true name (stdout s) (table s) (conn s))
  else (Raise ValueError,
        State (requests s) (log s) true (root_level s) (stdout s) (table s) (conn s)).

Definition print (m : message) : M unit := fun s =>
  (Ret tt,
   State (requests s) (log s) (root_handlers s) (root_level s)
         (stdout s ++ [m]) (table s) (conn s)).

(** ** The row store *)

Fixpoint has_nul (s : string) : bool :=
  match s with
  | EmptyString => false
  | String c rest => Nat.eqb (nat_of_ascii c) 0 || has_nul rest
  end.

(** The driver's adaptation of a Python value to an SQL literal: a string
    with a NUL character is refused, a list becomes an array, a dict cannot
    be adapted. *)
Fixpoint adapt (v : value) : result sqlval :=
  match v with
  | VNone => Ret SNull
  | VBool b => Ret (SBool b)
  | VInt n => Ret (SInt n)
  | VStr s => if has_nul s then Raise ValueError else Ret (SText s)
  | VList xs =>
      l <~ (fix each (l : list value) : result (list sqlval) :=
              match l with
              | [] => Ret []
              | x :: rest => y <~ adapt x ;; ys <~ each rest ;; Ret (y :: ys)
              end) xs ;;
      Ret (SArray l)
  | VDict _ => Raise ProgrammingError
  end.

(** The columns of the INSERT statement, in its order. *)
Definition columns : list string :=
  ["id"; "order_number"; "created_on"; "modified_on"; "channel"; "testmode";
   "customer_email"; "billing_first_name"; "billing_last_name";
   "billing_address1"; "billing_address2"; "billing_city"; "billing_state";
   "billing_country_code"; "billing_postal_code"; "billing_phone";
   "fulfillment_status"; "line_item_id"; "variant_id"; "variant_options";
   "sku"; "product_id"; "product_name"; "quantity"; "unit_price_paid";
   "image_url"; "line_item_type"; "customizations"; "subtotal";
   "shipping_total"; "discount_total"; "tax_total"; "refunded_total";
   "grand_total"; "channel_name"; "external_order_reference"; "fulfilled_on";
   "price_tax_interpretation"].

Fixpoint position (c : string) (cols : list string) : option nat :=
  match cols with
  | [] => None
  | c' :: rest =>
      if String.eqb c c' then Some O else option_map S (position c rest)
  end.

(** The cell of row [r] in column [c]. *)
Definition cell (c : string) (r : row) : option sqlval :=
  match position c columns with
  | Some i => nth_error r i
  | None => None
  end.

(** Modelled from the spec: the definition of the table [syc_orders] is not
    part of the repository; the spec names the LineItem id, the column
    [id], as the key of a row.  [row_key] is that cell as the driver sends
    it; what the table makes of it is [store_key]. *)
Definition row_key (r : row) : sqlval :=
  match cell "id" r with
  | Some k => k
  | None => SNull
  end.

(** Whether the store keeps row [r] under key [k]. *)
Definition keyed (h : host) (k : string) (r : row) : bool :=
  match store_key h r with
  | Ret k' => String.eqb k' k
  | Raise _ => false
  end.

Definition has_key (h : host) (k : string) (rows : list row) : bool :=
  existsb (keyed h k) rows.

(** The number of rows stored under key [k]. *)
Definition count_key (h : host) (k : string) (rows : list row) : nat :=
  List.length (List.filter (keyed h k) rows).

Definition set_conn (c : option session) (s : state) : state :=
  State (requests s) (log s) (root_handlers s) (root_level s) (stdout s)
        (table s) c.

Definition set_store (t : list row) (c : option session) (s : state) : state :=
  State (requests s) (log s) (root_handlers s) (root_level s) (stdout s) t c.

(** [cursor.execute(query, values)] for the INSERT statement.  The driver
    adapts the values first; the server then refuses every statement of an
    aborted transaction, and a statement that fails, by an error of the
    table or because the key is taken, aborts the transaction. *)
Definition cursor_execute (h : host) (values : list value) : M unit := fun s =>
  match rmap adapt values with
  | Raise e => (Raise e, s)
  | Ret r =>
      match conn s with
      | None => (Raise InterfaceError, s)
      | Some c =>
          if failed c then (Raise InFailedSqlTransaction, s)
          else
            match store_key h r with
            | Raise e => (Raise e, set_conn (Some (Session (pending c) true)) s)
            | Ret k =>
                if has_key h k (table s ++ pending c)
                then (Raise UniqueViolation,
                      set_conn (Some (Session (pending c) true)) s)
                else (Ret tt, set_conn (Some (Session (pending c ++ [r]) false)) s)
            end
      end
  end.

(** [conn.commit()]: the pending rows become part of the table; committing
    an aborted transaction rolls it back. *)
Definition conn_commit : M unit := fun s =>
  match conn s with
  | None => (Raise InterfaceError, s)
  | Some c =>
      if failed c then (Ret tt, set_conn (Some (Session [] false)) s)
      else (Ret tt, set_store (table s ++ pending c) (Some (Session [] false)) s)
  end.

(** [cursor.close()]. *)
Definition cursor_close : M unit := ret tt.

(** [conn.close()]: what was not committed is discarded. *)
Definition conn_close : M unit := fun s => (Ret tt, set_conn None s).

(** The expressions of the tuple [values]. *)
Inductive field : Type :=
| Item (k : string)              (* line_item[k] *)
| ItemSub (k sub : string)       (* line_item[k][sub] *)
| ItemDumps (k : string)         (* json.dumps(line_item[k]) *)
| Order (k : string)             (* payload[k] *)
| OrderSub (k sub : string)      (* payload[k][sub] *)
| VariantOptions.                (* the local variant_options *)

Definition values_tuple : list field :=
  [Item "id"; Order "orderNumber"; Order "createdOn"; Order "modifiedOn";
   Order "channel"; Order "testmode";
   Order "customerEmail"; OrderSub "billingAddress" "firstName";
   OrderSub "billingAddress" "lastName";
   OrderSub "billingAddress" "address1"; OrderSub "billingAddress" "address2";
   OrderSub "billingAddress" "city";
   OrderSub "billingAddress" "state"; OrderSub "billingAddress" "countryCode";
   OrderSub "billingAddress" "postalCode";
   OrderSub "billingAddress" "phone"; Order "fulfillmentStatus"; Item "id";
   Item "variantId";
   VariantOptions; Item "sku"; Item "productId"; Item "productName";
   Item "quantity";
   ItemSub "unitPricePaid" "value"; Item "imageUrl"; Item "lineItemType";
   ItemDumps "customizations"; OrderSub "subtotal" "value";
   OrderSub "shippingTotal" "value";
   OrderSub "discountTotal" "value"; OrderSub "taxTotal" "value";
   OrderSub "refundedTotal" "value";
   OrderSub "grandTotal" "value"; Order "channelName";
   Order "externalOrderReference"; Order "fulfilledOn";
   Order "priceTaxInterpretation"].

Definition eval_field (payload line_item variant_options : value) (f : field)
    : result value :=
  match f with
  | Item k => subscript line_item k
  | ItemSub k sub => a <~ subscript line_item k ;; subscript a sub
  | ItemDumps k => a <~ subscript line_item k ;; Ret (VStr (json_dumps a))
  | Order k => subscript payload k
  | OrderSub k sub => a <~ subscript payload k ;; subscript a sub
  | VariantOptions => Ret variant_options
  end.

(** [json.dumps(line_item['variantOptions']) if 'variantOptions' in line_item
    else None]. *)
Definition variant_options_of (line_item : value) : result value :=
  present <~ contains "variantOptions" line_item ;;
  if (present : bool)
  then a <~ subscript line_item "variantOptions" ;; Ret (VStr (json_dumps a))
  else Ret VNone.

(** The line items the inner loop visits: [payload['lineItems']]. *)
Definition line_items_of (payload : value) : result (list value) :=
  a <~ subscript payload "lineItems" ;; iterate a.

(** The body of the inner loop. *)
Definition insert_line_item (h : host) (payload line_item : value) : M unit :=
  variant_options <- lift (variant_options_of line_item) ;;
  try_except
    (values <- lift (rmap (eval_field payload line_item variant_options)
                          values_tuple) ;;
     cursor_execute h values)
    (fun e =>
       match e with
       | UniqueViolation =>
           Some (print (MsgExn "Caught duplicate lineitem, skipping: " e))
       | InFailedSqlTransaction =>
           Some (print (MsgExn "Some error in the transaction: " e))
       | _ => None
       end).

(** The body of the outer loop. *)
Definition insert_order (h : host) (payload : value) : M unit :=
  line_items <- lift (line_items_of payload) ;;
  for_each line_items (insert_line_item h payload) ;;
  conn_commit.

(** The tuple [values] built for a line item, and the row the driver sends. *)
Definition line_item_values (payload line_item : value) : result (list value) :=
  variant_options <~ variant_options_of line_item ;;
  rmap (eval_field payload line_item variant_options) values_tuple.

Definition line_item_row (payload line_item : value) : result row :=
  values <~ line_item_values payload line_item ;;
  rmap adapt values.

(** [fresh_rows h seen rows]: inserted in this order after the rows
    [seen], each of [rows] is taken by the table, under a key that is not
    yet in use. *)
Fixpoint fresh_rows (h : host) (seen rows : list row) : bool :=
  match rows with
  | [] => true
  | r :: rest =>
      match store_key h r with
      | Ret k => negb (has_key h k seen) && fresh_rows h (seen ++ [r]) rest
      | Raise _ => false
      end
  end.

(** The table a batch of orders leaves when every insert succeeds; [None]
    when some line item cannot be turned into a row or its key is taken. *)
Fixpoint clean_batch (h : host) (t : list row) (orders : list value)
    : option (list row) :=
  match orders with
  | [] => Some t
  | payload :: rest =>
      match line_items_of payload with
      | Ret line_items =>
          match rmap (line_item_row payload) line_items with
          | Ret rows =>
              if fresh_rows h t rows then clean_batch h (t ++ rows) rest else None
          | Raise _ => None
          end
      | Raise _ => None
      end
  end.

(** Every stored row has a key, and no other row has that key. *)
Definition store_ok (h : host) (t : list row) : Prop :=
  forall r, In r t ->
    exists k, store_key h r = Ret k /\ count_key h k t = 1%nat.

(** An f-string field for an environment variable. *)
Definition fstring (o : option string) : string :=
  match o with
  | Some v => v
  | None => "None"
  end.

(** ** The paginator *)

Section Script.

Variable h : host.

Definition os_environ_get (name : string) : option string := environ h !! name.

(** [requests.get(url, headers=..., params=...)]. *)
Definition requests_get (u hd ps : value) : M (Z * option value) := fun s =>
  let req := Request u hd ps in
  let s' := State (requests s ++ [req]) (log s) (root_handlers s) (root_level s)
                  (stdout s) (table s) (conn s) in
  match remote h (requests s) req with
  | NetworkFailure => (Raise ConnectionError, s')
  | Response code body => (Ret (code, body), s')
  | Interrupted => (Raise KeyboardInterrupt, s')
  end.

(** [response.raise_for_status()]. *)
Definition raise_for_status (code : Z) : result unit :=
  if (Z.leb 400 code && Z.ltb code 600)%bool then Raise (HTTPError code) else Ret tt.

(** [response.json()]. *)
Definition response_json (body : option value) : result value :=
  match body with
  | Some v => Ret v
  | None => Raise JSONDecodeError
  end.

(** ["Bearer " + commerce_creds]. *)
Definition bearer (creds : option string) : result string :=
  match creds with
  | Some c => Ret ("Bearer " +:+ c)
  | None => Raise TypeError
  end.

Definition api_headers (authorization : string) : value :=
  VDict [("Authorization", VStr authorization); ("User-Agent", VStr "MembershipBot")].

Fixpoint squarespace_items (depth : nat) (api_endpoint : value)
    (json_return : string) (parameters : value) : M value :=
  match depth with
  | O => raise RecursionError
  | S depth' =>
      let commerce_creds := os_environ_get "SQUARESPACE_API_KEY" in
      authorization <- lift (bearer commerce_creds) ;;
      let headers := api_headers authorization in
      response <- requests_get api_endpoint headers parameters ;;
      let '(code, body) := response in
      lift (raise_for_status code) ;;
      json_data <- lift (response_json body) ;;
      if Z.eqb code 200 then
        item_list <- lift (a <~ subscript json_data json_return ;; iterate a) ;;
        more <- lift (p <~ subscript json_data "pagination" ;;
                      subscript p "hasNextPage") ;;
        if truthy more then
          next <- lift (p <~ subscript json_data "pagination" ;;
                        subscript p "nextPageUrl") ;;
          rest <- squarespace_items depth' next json_return VNone ;;
          lift (list_add item_list rest)
        else ret (VList item_list)
      else
        logging ERROR
          (Msg ("Return status from response was requests.get was NOT OK: "
                +:+ dumps_int code)) ;;
        ret (VBool false)
  end.

Definition orders_api_endpoint : value :=
  VStr "https://api.squarespace.com/1.0/commerce/orders".

Definition request_parameters (year_beginning year_end : string) : value :=
  VDict [("modifiedAfter", VStr year_beginning);
         ("modifiedBefore", VStr year_end)].

(** The local [orders] is unbound when the [try] block is left through the
    handler: [None] below. *)
Definition squarespace_orders_json : M value :=
  let current_year := year h in
  d1 <- lift (date_isoformat current_year 1 1) ;;
  let year_beginning := d1 +:+ "T00:00:00.0Z" in
  d2 <- lift (date_isoformat current_year 12 30) ;;
  let year_end := d2 +:+ "T00:00:00.0Z" in
  orders <- try_except
    (let json_var := "result" in
     orders <- squarespace_items (recursion_limit h) orders_api_endpoint json_var
                 (request_parameters year_beginning year_end) ;;
     (if truthy orders then ret tt
      else logging WARNING (Msg "No orders since the beginning of the year")) ;;
     ret (Some orders))
    (fun error =>
       match error with
       | HTTPError _ =>
           Some (logging ERROR (MsgExn "Failed to get new orders: " error) ;;
                 ret None)
       | _ => None
       end) ;;
  match orders with
  | Some v => ret v
  | None => raise (UnboundLocalError "orders")
  end.

(** ** The persister *)

Definition db_conn_string : string :=
  "postgresql://" +:+ fstring (os_environ_get "DB_USER") +:+ ":"
  +:+ fstring (os_environ_get "DB_PASS") +:+ "@"
  +:+ fstring (os_environ_get "DB_SERVER")
  +:+ ".us-west-2.retooldb.com/retool?sslmode=require".

(** [try: conn = psycopg2.connect(...); cursor = conn.cursor()
    except Exception as e: ...]: the answer is [Some (str(e))] when the
    handler runs. *)
Definition psycopg2_connect (dsn : string) : M (option string) := fun s =>
  match db_connect h dsn with
  | Some e => (Ret (Some e), s)
  | None => (Ret None, set_conn (Some (Session [] false)) s)
  end.

Definition status_response (code : Z) (text : string) : value :=
  VDict [("statusCode", VInt code); ("body", VStr (json_dumps (VStr text)))].

Definition insert_items (items : value) : M value :=
  e <- psycopg2_connect db_conn_string ;;
  match e with
  | Some text => ret (status_response 500 ("Database connection error: " +:+ text))
  | None =>
      payloads <- lift (iterate items) ;;
      for_each payloads (insert_order h) ;;
      cursor_close ;;
      conn_close ;;
      print (Msg "Successful load out") ;;
      ret (VInt 0)
  end.

(** ** Entry points *)

Definition main : M value :=
  match os_environ_get "SQUARESPACE_API_KEY" with
  | None =>
      logging CRITICAL (Msg "Failed to pass SQUARESPACE_API_KEY. Exiting") ;;
      ret (VInt 1)
  | Some _ =>
      let LOGLEVEL :=
        upper (match os_environ_get "LOGLEVEL" with
               | Some v => v
               | None => "INFO"
               end) in
      logging_basicConfig LOGLEVEL ;;
      orders <- squarespace_orders_json ;;
      insert_items orders ;;
      ret (status_response 200 "Data inserted successfully!")
  end.

Definition handler (event context : value) : M value := main.

(** [sys.exit(v)]: the exit status of the process. *)
Definition exit_status (v : value) : Z :=
  match v with
  | VNone => 0
  | VBool b => if b then 1 else 0
  | VInt n => n mod 256
  | _ => 1
  end.

(** The script run directly, with the exit status of the process:
    [try: sys.exit(main())  except KeyboardInterrupt: logging.critical(...)].
    After the handler the script ends, with status 0; another exception of
    [main] leaves the script as it was raised. *)
Definition script : M Z :=
  try_except
    (v <- main ;;
     ret (exit_status v))
    (fun e =>
       match e with
       | KeyboardInterrupt =>
           Some (logging CRITICAL (Msg "Caught a control-C. Bailing out") ;;
                 ret 0)
       | _ => None
       end).

End Script.

(** ** Sample data *)

Module Sample.

Definition money (amount : string) : value :=
  VDict [("currency", VStr "USD"); ("value", VStr amount)].

Definition billing : value :=
  VDict [("firstName", VStr "Ada"); ("lastName", VStr "Byron");
         ("address1", VStr "1 Harbour Road"); ("address2", VNone);
         ("city", VStr "Sherborn"); ("state", VStr "MA");
         ("countryCode", VStr "US"); ("postalCode", VStr "01770");
         ("phone", VStr "555-0100")].

(** A line item without [variantOptions]. *)
Definition line_item (id sku : string) (quantity : Z) : value :=
  VDict [("id", VStr id); ("variantId", VNone); ("sku", VStr sku);
         ("productId", VStr "p-1"); ("productName", VStr "Mooring fee");
         ("quantity", VInt quantity); ("unitPricePaid", money "19.99");
         ("imageUrl", VStr "https://example.org/i.png");
         ("lineItemType", VStr "SERVICE"); ("customizations", VNone)].

Definition order (number : string) (line_items : list value) : value :=
  VDict [("orderNumber", VStr number); ("createdOn", VStr "2026-03-01T10:00:00Z");
         ("modifiedOn", VStr "2026-03-01T10:00:00Z"); ("channel", VStr "web");
         ("testmode", VBool false); ("customerEmail", VStr "ada@example.org");
         ("billingAddress", billing); ("fulfillmentStatus", VStr "PENDING");
         ("lineItems", VList line_items); ("subtotal", money "39.98");
         ("shippingTotal", money "0.00"); ("discountTotal", money "0.00");
         ("taxTotal", money "0.00"); ("refundedTotal", money "0.00");
         ("grandTotal", money "39.98"); ("channelName", VStr "Squarespace");
         ("externalOrderReference", VNone); ("fulfilledOn", VNone);
         ("priceTaxInterpretation", VStr "EXCLUSIVE")].

Definition page (records : list value) (next : option string) : value :=
  VDict [("result", VList records);
         ("pagination",
          VDict [("hasNextPage", VBool (match next with Some _ => true | None => false end));
                 ("nextPageUrl", match next with Some u => VStr u | None => VNone end)])].

Definition environment : gmap string string :=
  {[ "SQUARESPACE_API_KEY" := "secret"; "DB_USER" := "bot";
     "DB_PASS" := "pw"; "DB_SERVER" := "db1" ]}.

Definition start : state := State [] [] false "WARNING" [] [] None.

(** An API that answers every request with one page. *)
Definition one_page (records : list value) : list request -> request -> outcome :=
  fun _ _ => Response 200 (Some (page records None)).

(** An API with two pages of two records: the first request gets the first
    page and the URL of the second. *)
Definition two_pages (a b c d : value) : list request -> request -> outcome :=
  fun past _ =>
    match past with
    | [] => Response 200 (Some (page [a; b] (Some "https://api.squarespace.com/1.0/commerce/orders?cursor=2")))
    | _ => Response 200 (Some (page [c; d] None))
    end.

(** A batch of two orders with three line items, none with variant options. *)
Definition batch : list value :=
  [order "1001" [line_item "li-1" "ABC" 2; line_item "li-2" "DEF" 1];
   order "1002" [line_item "li-3" "ABC" 5]].

(** A line item with variant options, and one without [customizations]. *)
Definition with_options : value :=
  VDict [("id", VStr "li-4"); ("variantId", VStr "v-1");
         ("variantOptions",
          VList [VDict [("optionName", VStr "Size"); ("value", VStr "L")]]);
         ("sku", VStr "GHI");
         ("productId", VStr "p-2"); ("productName", VStr "Burgee");
         ("quantity", VInt 1); ("unitPricePaid", money "25.00");
         ("imageUrl", VStr "https://example.org/b.png");
         ("lineItemType", VStr "PHYSICAL_PRODUCT"); ("customizations", VNone)].

Definition without_customizations : value :=
  VDict [("id", VStr "li-5"); ("variantId", VNone); ("sku", VStr "JKL");
         ("productId", VStr "p-3"); ("productName", VStr "Launch pass");
         ("quantity", VInt 1); ("unitPricePaid", money "10.00");
         ("imageUrl", VStr "https://example.org/l.png");
         ("lineItemType", VStr "SERVICE")].

(** A table whose key column [id] holds text: a text is its own key, a
    number or a truth value is stored as its text, a null key and an array
    are refused. *)
Definition text_key (r : list sqlval) : result string :=
  match r with
  | SText s :: _ => Ret s
  | SInt n :: _ => Ret (dumps_int n)
  | SBool true :: _ => Ret "true"
  | SBool false :: _ => Ret "false"
  | SNull :: _ => Raise NotNullViolation
  | SArray _ :: _ => Raise DataError
  | [] => Raise NotNullViolation
  end.

(** A host with a credential, one page of [records] behind the API and a
    database that accepts connections. *)
Definition host_with (records : list value) : host :=
  Host environment 2026 1000 (one_page records) (fun _ => None) text_key.

(** The same host with the API answering 404. *)
Definition host_not_found : host :=
  Host environment 2026 1000 (fun _ _ => Response 404 None) (fun _ => None) text_key.

(** A host whose database refuses connections. *)
Definition host_no_database : host :=
  Host environment 2026 1000 (one_page []) (fun _ => Some "connection refused")
       text_key.

(** A host whose user presses control-C while the first answer is awaited. *)
Definition host_interrupted : host :=
  Host environment 2026 1000 (fun _ _ => Interrupted) (fun _ => None) text_key.

(** A host without the API credential. *)
Definition host_no_credential : host :=
  Host (delete "SQUARESPACE_API_KEY" environment) 2026 1000 (one_page [])
       (fun _ => None) text_key.

(** The state a first run of the persister on the sample batch leaves. *)
Definition after_batch : state :=
  snd (insert_items (host_with []) (VList batch) start).

End Sample.

(** ** Vocabulary of the properties *)

(** *** State relations kept by every step

    A computation [respects] a relation between the state before and the
    state after when every run of it, normal or exceptional, does. *)

Definition respects {A} (R : state -> state -> Prop) (m : M A) : Prop :=
  forall s r s', m s = (r, s') -> R s s'.

(** The trace of requests only grows. *)
Definition grows (s s' : state) : Prop :=
  exists more, requests s' = requests s ++ more.

(** A connection that is open stays open. *)
Definition stays_open (s s' : state) : Prop := is_Some (conn s) -> is_Some (conn s').

(** Nothing is committed. *)
Definition same_table (s s' : state) : Prop := table s' = table s.

(** *** Pagination *)

(** [serves api hd key past u ps pages]: after the requests [past], the API
    answers a request for [u] with parameters [ps] with status 200 and the
    first of [pages] under [key]; its pagination descriptor announces a next
    page exactly when [pages] has more, and the next-page URL, requested
    without parameters, is answered in the same way with the remaining
    pages. *)
Inductive serves (api : list request -> request -> outcome) (hd : value)
    (key : string) : list request -> value -> value -> list (list value) -> Prop :=
| serves_last past u ps body records pagination more :
    api past (Request u hd ps) = Response 200 (Some body) ->
    subscript body key = Ret (VList records) ->
    subscript body "pagination" = Ret pagination ->
    subscript pagination "hasNextPage" = Ret more ->
    truthy more = false ->
    serves api hd key past u ps [records]
| serves_next past u ps body records pagination more next pages :
    api past (Request u hd ps) = Response 200 (Some body) ->
    subscript body key = Ret (VList records) ->
    subscript body "pagination" = Ret pagination ->
    subscript pagination "hasNextPage" = Ret more ->
    truthy more = true ->
    subscript pagination "nextPageUrl" = Ret next ->
    serves api hd key (past ++ [Request u hd ps]) next VNone pages ->
    serves api hd key past u ps (records :: pages).

(** *** Batches and the store *)

Definition fresh_session : option session := Some (Session [] false).

(** [stored t orders]: every line item of every order of the batch yields a
    row, and that row is in [t]. *)
Definition stored (t : list row) (orders : list value) : Prop :=
  forall payload, In payload orders ->
    exists line_items,
      line_items_of payload = Ret line_items
      /\ forall li, In li line_items ->
           exists r, line_item_row payload li = Ret r /\ In r t.

(** What a run prints for line items whose rows are all stored already:
    outside an aborted transaction the first is reported as a duplicate that
    is skipped, and every later one as an error of the transaction. *)
Fixpoint stored_lines (aborted : bool) (line_items : list value) : list message :=
  match line_items with
  | [] => []
  | _ :: rest =>
      (if aborted
       then MsgExn "Some error in the transaction: " InFailedSqlTransaction
       else MsgExn "Caught duplicate lineitem, skipping: " UniqueViolation)
      :: stored_lines true rest
  end.

(** The same for a batch, each order in a transaction of its own. *)
Fixpoint rerun_output (orders : list value) : list message :=
  match orders with
  | [] => []
  | payload :: rest =>
      match line_items_of payload with
      | Ret line_items => stored_lines false line_items
      | Raise _ => []
      end ++ rerun_output rest
  end.

(** Every field of the tuple other than the customizations can be read. *)
Definition other_fields_present (payload line_item : value) : Prop :=
  forall vo f,
    In f values_tuple -> f <> ItemDumps "customizations" ->
    exists v, eval_field payload line_item vo f = Ret v.

(** *** Further vocabulary *)

(** The state after a call of [requests.get]. *)
Definition sent (req : request) (s : state) : state :=
  State (requests s ++ [req]) (log s) (root_handlers s) (root_level s)
        (stdout s) (table s) (conn s).

(** The state after a call of [logging.critical], [error] or [warning]. *)
Definition logged (l : level) (m : message) (s : state) : state :=
  State (requests s) (log s ++ [(l, m)]) true (root_level s)
        (stdout s) (table s) (conn s).

(** [answered api past more]: each request of [more], issued in this order
    after [past], was answered with status 200 and a JSON body. *)
Fixpoint answered (api : list request -> request -> outcome)
    (past more : list request) : Prop :=
  match more with
  | [] => True
  | req :: rest =>
      (exists body, api past req = Response 200 (Some body))
      /\ answered api (past ++ [req]) rest
  end.

(** The table only gets rows appended. *)
Definition appended (s s' : state) : Prop :=
  exists rows, table s' = table s ++ rows.

(** The fetch leaves the store, the connection and the printed lines alone. *)
Definition store_untouched (s s' : state) : Prop :=
  table s' = table s /\ conn s' = conn s /\ stdout s' = stdout s.

(** The persister issues no request and logs nothing. *)
Definition silent (s s' : state) : Prop :=
  requests s' = requests s /\ log s' = log s
  /\ root_handlers s' = root_handlers s /\ root_level s' = root_level s.

(** The stored rows have sound keys, and so have the stored rows together
    with the pending ones of a transaction that is not aborted. *)
Definition sound (h : host) (s : state) : Prop :=
  store_ok h (table s)
  /\ match conn s with
     | Some c => failed c = false -> store_ok h (table s ++ pending c)
     | None => True
     end.

Definition keeps_sound (h : host) (s s' : state) : Prop := sound h s -> sound h s'.

(** The rows of a batch, order after order: [None] when some line item
    cannot be turned into a row. *)
Fixpoint batch_rows (orders : list value) : option (list row) :=
  match orders with
  | [] => Some []
  | payload :: rest =>
      match line_items_of payload with
      | Ret line_items =>
          match rmap (line_item_row payload) line_items, batch_rows rest with
          | Ret rows, Some more => Some (rows ++ more)
          | _, _ => None
          end
      | Raise _ => None
      end
  end.

(** ** Sample runs *)

Module Duplicate.

(** The store after an earlier run that wrote the line item li-2. *)
Definition before : state :=
  snd (insert_items (Sample.host_with [])
         (VList [Sample.order "1000" [Sample.line_item "li-2" "ABC" 1]])
         Sample.start).

(** An order with a new line item, li-1, and the stored one, li-2. *)
Definition fresh_then_stored : value :=
  Sample.order "1001" [Sample.line_item "li-1" "ABC" 2; Sample.line_item "li-2" "ABC" 1].

Definition stored_then_fresh : value :=
  Sample.order "1001" [Sample.line_item "li-2" "ABC" 1; Sample.line_item "li-1" "ABC" 2].

End Duplicate.

Module Incomplete.

Definition done : list value :=
  [Sample.order "1001" [Sample.line_item "li-1" "ABC" 2]].

(** An order whose second line item has no customizations. *)
Definition payload : value :=
  Sample.order "1002"
    [Sample.line_item "li-3" "ABC" 5; Sample.without_customizations;
     Sample.line_item "li-6" "MNO" 1].

Definition todo : list value :=
  [Sample.order "1003" [Sample.line_item "li-7" "PQR" 1]].

(** The state after the first order, and after the first line item of the
    second. *)
Definition s1 : state :=
  snd (for_each done (insert_order (Sample.host_with []))
         (set_conn (Some (Session [] false)) Sample.start)).

Definition s2 : state :=
  snd (for_each [Sample.line_item "li-3" "ABC" 5]
         (insert_line_item (Sample.host_with []) payload) s1).

End Incomplete.

Module Options.

Definition done : list value := [Sample.order "1001" [Sample.line_item "li-1" "ABC" 2]].

(** An order with a line item that has variant options and one that has
    none. *)
Definition payload : value :=
  Sample.order "1003" [Sample.with_options; Sample.line_item "li-3" "ABC" 5].

Definition todo : list value :=
  [Sample.order "1004" [Sample.line_item "li-7" "PQR" 1; VInt 3]].

Definition s1 : state :=
  snd (for_each done (insert_order (Sample.host_with []))
         (set_conn (Some (Session [] false)) Sample.start)).

Definition quoted (s : string) : string := dquote +:+ s +:+ dquote.

(** The text of the variant options of [Sample.with_options]. *)
Definition size_large : string :=
  "[{" +:+ quoted "optionName" +:+ ": " +:+ quoted "Size" +:+ ", "
  +:+ quoted "value" +:+ ": " +:+ quoted "L" +:+ "}]".

End Options.

(** * Properties *)

(** ** Stepping through computations *)

Lemma bind_ret {A B} (m : M A) (k : A -> M B) s a s' :
  m s = (Ret a, s') -> bind m k s = k a s'.
Proof. intros E. unfold bind. now rewrite E. Qed.

Lemma bind_raise {A B} (m : M A) (k : A -> M B) s e s' :
  m s = (Raise e, s') -> bind m k s = (Raise e, s').
Proof. intros E. unfold bind. now rewrite E. Qed.

Lemma bind_lift_ret {A B} (a : A) (k : A -> M B) s :
  bind (lift (Ret a)) k s = k a s.
Proof. reflexivity. Qed.

(** ** Combinators for state relations *)

Section Respects.

Variable R : state -> state -> Prop.
Hypothesis R_refl : forall s, R s s.
Hypothesis R_trans : forall s1 s2 s3, R s1 s2 -> R s2 s3 -> R s1 s3.

Lemma respects_ret {A} (a : A) : respects R (ret a).
Proof. intros s r s' E. inversion E. subst. apply R_refl. Qed.

Lemma respects_raise {A} (e : exn) : respects R (@raise A e).
Proof. intros s r s' E. inversion E. subst. apply R_refl. Qed.

Lemma respects_lift {A} (x : result A) : respects R (lift x).
Proof. intros s r s' E. inversion E. subst. apply R_refl. Qed.

Lemma respects_bind {A B} (m : M A) (k : A -> M B) :
  respects R m -> (forall a, respects R (k a)) -> respects R (bind m k).
Proof.
  intros Hm Hk s r s' E. unfold bind in E.
  destruct (m s) as [[a | e] s1] eqn:Em.
  - eapply R_trans; [eapply Hm, Em | eapply Hk, E].
  - inversion E. subst. eapply Hm, Em.
Qed.

Lemma respects_try {A} (m : M A) (handler : exn -> option (M A)) :
  respects R m ->
  (forall e recover, handler e = Some recover -> respects R recover) ->
  respects R (try_except m handler).
Proof.
  intros Hm Hh s r s' E. unfold try_except in E.
  destruct (m s) as [[a | e] s1] eqn:Em.
  - inversion E. subst. eapply Hm, Em.
  - destruct (handler e) as [recover |] eqn:Eh.
    + eapply R_trans; [eapply Hm, Em | eapply Hh; eauto].
    + inversion E. subst. eapply Hm, Em.
Qed.

Lemma respects_for_each {A} (xs : list A) (body : A -> M unit) :
  (forall x, respects R (body x)) -> respects R (for_each xs body).
Proof.
  intros Hb. induction xs as [| x rest IH]; simpl.
  - apply respects_ret.
  - apply respects_bind; auto.
Qed.

End Respects.

Lemma grows_refl s : grows s s.
Proof. exists []. now rewrite app_nil_r. Qed.

Lemma grows_trans s1 s2 s3 : grows s1 s2 -> grows s2 s3 -> grows s1 s3.
Proof.
  intros [m1 E1] [m2 E2]. exists (m1 ++ m2). rewrite E2, E1. now rewrite <- app_assoc.
Qed.

Lemma logging_grows l m : respects grows (logging l m).
Proof. intros s r s' E. inversion E. exists []. cbn. now rewrite app_nil_r. Qed.

Lemma requests_get_grows h u hd ps : respects grows (requests_get h u hd ps).
Proof.
  intros s r s' E. unfold requests_get in E. exists [Request u hd ps].
  destruct (remote h (requests s) (Request u hd ps)); inversion E; reflexivity.
Qed.

(** Decompose a [respects] goal along the structure of the computation;
    [base] closes the goals about primitive steps. *)
Ltac respects_with refl trans base :=
  repeat first
    [ base
    | apply (respects_lift _ refl)
    | apply (respects_ret _ refl)
    | apply (respects_raise _ refl)
    | apply (respects_bind _ trans); [| intros ?]
    | apply (respects_for_each _ refl trans); intros ?
    | match goal with
      | |- respects _ (let '(_, _) := ?x in _) => destruct x
      | |- respects _ (if ?b then _ else _) => destruct b
      | |- respects _ (match ?x with Some _ => _ | None => _ end) => destruct x
      end ].

Lemma squarespace_items_grows h depth :
  forall u key ps, respects grows (squarespace_items h depth u key ps).
Proof.
  induction depth as [| d IH]; intros u key ps; simpl;
    respects_with grows_refl grows_trans
      ltac:(first [apply IH | apply logging_grows | apply requests_get_grows]).
Qed.

(** With a credential and a frame to run in, [squarespace_items] starts by
    requesting the given endpoint with the given parameters. *)
Lemma squarespace_items_requests h depth u key ps creds s :
  environ h !! "SQUARESPACE_API_KEY" = Some creds ->
  exists more,
    requests (snd (squarespace_items h (S depth) u key ps s)) =
    requests s ++ Request u (api_headers ("Bearer " +:+ creds)) ps :: more.
Proof.
  intros Ec. simpl. unfold os_environ_get. rewrite Ec. cbn [bearer].
  rewrite bind_lift_ret. unfold bind at 1.
  destruct (requests_get h u _ ps s) as [[resp | e] s1] eqn:Eg.
  - assert (requests s1 = requests s ++ [Request u (api_headers ("Bearer " +:+ creds)) ps]) as E1.
    { unfold requests_get in Eg. destruct (remote h _ _); inversion Eg; reflexivity. }
    match goal with |- context [snd ?run] => destruct run as [r s'] eqn:E end.
    assert (grows s1 s') as [more Em].
    { revert E. generalize s1 r s'. fold (respects (A:=value) grows).
      destruct resp as [code body].
      respects_with grows_refl grows_trans
        ltac:(first [apply squarespace_items_grows | apply logging_grows]). }
    exists more. cbn [snd]. rewrite Em, E1, <- app_assoc. reflexivity.
  - unfold requests_get in Eg. destruct (remote h _ _); inversion Eg;
      exists []; reflexivity.
Qed.

(** The first request of a run of [squarespace_items], if there is one, is
    for the given endpoint with the given parameters. *)
Lemma squarespace_items_first_request h depth u key ps s first more :
  requests (snd (squarespace_items h depth u key ps s)) = requests s ++ first :: more ->
  url first = u /\ params first = ps.
Proof.
  destruct depth as [| d].
  - simpl. intros E. apply (f_equal (@List.length request)) in E.
    rewrite length_app in E. simpl in E. lia.
  - destruct (environ h !! "SQUARESPACE_API_KEY") as [creds |] eqn:Ec.
    + destruct (squarespace_items_requests h d u key ps creds s Ec) as [more' E'].
      rewrite E'. intros E. apply app_inv_head in E. inversion E. now subst.
    + simpl. unfold os_environ_get. rewrite Ec. simpl.
      intros E. apply (f_equal (@List.length request)) in E.
      rewrite length_app in E. simpl in E. lia.
Qed.

Lemma append_assoc (a b c : string) : (a +:+ b) +:+ c = a +:+ b +:+ c.
Proof. induction a as [| x a IH]; [reflexivity | exact (f_equal (String x) IH)]. Qed.

(** ** Pagination *)

Lemma length_concat_uniform {A} (pages : list (list A)) (k : nat) :
  Forall (fun p => List.length p = k) pages ->
  List.length (concat pages) = (List.length pages * k)%nat.
Proof.
  induction 1 as [| p rest Hp _ IH]; simpl; [reflexivity |].
  rewrite length_app, IH, Hp. reflexivity.
Qed.

Lemma squarespace_items_pages (h : host) (creds key : string) :
  environ h !! "SQUARESPACE_API_KEY" = Some creds ->
  forall past u ps pages,
    serves (remote h) (api_headers ("Bearer " +:+ creds)) key past u ps pages ->
    forall depth s,
      requests s = past ->
      (List.length pages <= depth)%nat ->
      exists more,
        List.length more = List.length pages /\
        squarespace_items h depth u key ps s =
          (Ret (VList (concat pages)),
           State (requests s ++ more) (log s) (root_handlers s) (root_level s)
                 (stdout s) (table s) (conn s)).
Proof.
  intros Ec past u ps pages Hs.
  induction Hs as [past u ps body records pagination more Ea Er Ep Em Et
                  | past u ps body records pagination more next pages
                      Ea Er Ep Em Et En Hs IH];
    intros depth s Epast Hd; (destruct depth as [| d]; [simpl in Hd; lia |]);
    subst past; cbn [squarespace_items]; unfold os_environ_get; rewrite Ec;
    cbn [bearer]; rewrite bind_lift_ret; unfold bind at 1, requests_get;
    rewrite Ea; cbn [raise_for_status response_json Z.leb Z.ltb Z.compare
                     Pos.compare Pos.compare_cont andb Z.eqb Pos.eqb];
    rewrite !bind_lift_ret; rewrite Er; cbn [rbind iterate];
    rewrite bind_lift_ret, Ep; cbn [rbind]; rewrite Em, bind_lift_ret, Et.
  - exists [Request u (api_headers ("Bearer " +:+ creds)) ps]. split; [reflexivity |].
    cbn. now rewrite app_nil_r.
  - rewrite En, bind_lift_ret.
    edestruct (IH d) as [more' [El Erun]];
      [ | | erewrite (bind_ret _ _ _ _ _ Erun)]; [reflexivity | simpl in Hd; lia |].
    exists (Request u (api_headers ("Bearer " +:+ creds)) ps :: more'). split.
    + simpl. now rewrite El.
    + cbn. now rewrite <- app_assoc.
Qed.

(** C1: when the endpoint serves N pages of k records each, every page with
    status 200 and the next-page flag set on all pages but the last, and the
    credential is set, [squarespace_items] returns the list of the N * k
    records, page after page and inside a page in the order of the array,
    after exactly N requests (N frames are enough for the recursion). *)
Theorem squarespace_items_complete (h : host) (creds key : string) (u ps : value)
    (pages : list (list value)) (N k depth : nat) (s : state) :
  environ h !! "SQUARESPACE_API_KEY" = Some creds ->
  serves (remote h) (api_headers ("Bearer " +:+ creds)) key (requests s) u ps pages ->
  List.length pages = N ->
  Forall (fun p => List.length p = k) pages ->
  (N <= depth)%nat ->
  exists s',
    squarespace_items h depth u key ps s = (Ret (VList (concat pages)), s')
    /\ List.length (concat pages) = (N * k)%nat
    /\ List.length (requests s') = (List.length (requests s) + N)%nat
    /\ log s' = log s.
Proof.
  intros Ec Hs EN Hk Hd. subst N.
  destruct (squarespace_items_pages h creds key Ec _ _ _ _ Hs depth s eq_refl Hd)
    as [more [El Erun]].
  eexists. split; [exact Erun |]. split; [now apply length_concat_uniform |].
  cbn. rewrite length_app, El. split; reflexivity.
Qed.

Lemma squarespace_items_complete_witness :
  let h := Host Sample.environment 2026 1000
                (Sample.two_pages (VInt 1) (VInt 2) (VInt 3) (VInt 4)) (fun _ => None)
                Sample.text_key in
  serves (remote h) (api_headers ("Bearer " +:+ "secret")) "result"
         (requests Sample.start) orders_api_endpoint VNone
         [[VInt 1; VInt 2]; [VInt 3; VInt 4]]
  /\ exists s',
       squarespace_items h 5 orders_api_endpoint "result" VNone Sample.start
         = (Ret (VList (concat [[VInt 1; VInt 2]; [VInt 3; VInt 4]])), s')
       /\ List.length (concat [[VInt 1; VInt 2]; [VInt 3; VInt 4]]) = (2 * 2)%nat
       /\ List.length (requests s') = (List.length (requests Sample.start) + 2)%nat
       /\ log s' = log Sample.start.
Proof.
  intros h.
  assert (serves (remote h) (api_headers ("Bearer " +:+ "secret")) "result"
            (requests Sample.start) orders_api_endpoint VNone
            [[VInt 1; VInt 2]; [VInt 3; VInt 4]]) as Hs.
  { eapply serves_next; try reflexivity.
    eapply serves_last; reflexivity. }
  split; [exact Hs |].
  apply (squarespace_items_complete h "secret" "result" orders_api_endpoint VNone
           [[VInt 1; VInt 2]; [VInt 3; VInt 4]] 2 2 5 Sample.start);
    [ reflexivity | exact Hs | reflexivity | repeat constructor | lia ].
Defined.

(** ** The time window of the fetch *)

(** C7: the first request of [squarespace_orders_json], the top-level fetch
    call, goes to the orders endpoint with [modifiedAfter] set to January 1
    and [modifiedBefore] to December 30 of the current year, both at
    00:00:00.0 UTC; the function has no argument the window could depend
    on.  With a credential and a frame to run in, that request is issued. *)
Theorem squarespace_orders_json_window (h : host) (s : state) :
  1 <= year h <= 9999 ->
  let s' := snd (squarespace_orders_json h s) in
  (forall first more,
     requests s' = requests s ++ first :: more ->
     url first = VStr "https://api.squarespace.com/1.0/commerce/orders" /\
     params first =
       VDict [("modifiedAfter", VStr (pad 4 (year h) +:+ "-01-01T00:00:00.0Z"));
              ("modifiedBefore", VStr (pad 4 (year h) +:+ "-12-30T00:00:00.0Z"))])
  /\ (is_Some (environ h !! "SQUARESPACE_API_KEY") ->
      (0 < recursion_limit h)%nat ->
      exists first more, requests s' = requests s ++ first :: more).
Proof.
  intros Hy.
  assert (forall m d, date_isoformat (year h) m d
                      = Ret (pad 4 (year h) +:+ "-" +:+ pad 2 m +:+ "-" +:+ pad 2 d)) as Ed.
  { intros m d. unfold date_isoformat.
    replace (1 <=? year h) with true by (symmetry; apply Z.leb_le; lia).
    replace (year h <=? 9999) with true by (symmetry; apply Z.leb_le; lia).
    reflexivity. }
  intros s'. subst s'. unfold squarespace_orders_json.
  rewrite !Ed, !bind_lift_ret.
  set (ps := request_parameters _ _).
  assert (ps = VDict [("modifiedAfter", VStr (pad 4 (year h) +:+ "-01-01T00:00:00.0Z"));
                      ("modifiedBefore", VStr (pad 4 (year h) +:+ "-12-30T00:00:00.0Z"))]) as Eps.
  { subst ps. unfold request_parameters. rewrite !append_assoc. reflexivity. }
  assert (requests (snd (bind (try_except
            (orders <- squarespace_items h (recursion_limit h) orders_api_endpoint "result" ps ;;
             (if truthy orders then ret tt
              else logging WARNING (Msg "No orders since the beginning of the year")) ;;
             ret (Some orders))
            (fun error => match error with
               | HTTPError _ =>
                   Some (logging ERROR (MsgExn "Failed to get new orders: " error) ;;
                         ret None)
               | _ => None
               end))
            (fun orders => match orders with
               | Some v => ret v
               | None => raise (UnboundLocalError "orders")
               end) s))
          = requests (snd (squarespace_items h (recursion_limit h) orders_api_endpoint "result" ps s))) as Eq.
  { unfold bind, try_except.
    destruct (squarespace_items h _ _ _ ps s) as [[v | e] s1]; cbn.
    - destruct (truthy v); reflexivity.
    - destruct e; reflexivity. }
  cbv zeta. rewrite Eq. split.
  - intros first more E. apply squarespace_items_first_request in E.
    rewrite <- Eps. exact E.
  - intros [creds Ec] Hd. destruct (recursion_limit h) as [| d]; [lia |].
    destruct (squarespace_items_requests h d orders_api_endpoint "result" ps creds s Ec)
      as [more E].
    eauto.
Qed.

Lemma squarespace_orders_json_window_witness :
  1 <= year (Sample.host_with []) <= 9999 /\
  let s' := snd (squarespace_orders_json (Sample.host_with []) Sample.start) in
  (forall first more,
     requests s' = requests Sample.start ++ first :: more ->
     url first = VStr "https://api.squarespace.com/1.0/commerce/orders" /\
     params first =
       VDict [("modifiedAfter",
               VStr (pad 4 (year (Sample.host_with [])) +:+ "-01-01T00:00:00.0Z"));
              ("modifiedBefore",
               VStr (pad 4 (year (Sample.host_with [])) +:+ "-12-30T00:00:00.0Z"))])
  /\ (is_Some (environ (Sample.host_with []) !! "SQUARESPACE_API_KEY") ->
      (0 < recursion_limit (Sample.host_with []))%nat ->
      exists first more, requests s' = requests Sample.start ++ first :: more).
Proof.
  split; [cbn; lia |].
  apply (squarespace_orders_json_window (Sample.host_with []) Sample.start).
  cbn; lia.
Defined.

Example window_2026 :
  requests (snd (squarespace_orders_json (Sample.host_with []) Sample.start)) =
    [Request (VStr "https://api.squarespace.com/1.0/commerce/orders")
             (api_headers "Bearer secret")
             (VDict [("modifiedAfter", VStr "2026-01-01T00:00:00.0Z");
                     ("modifiedBefore", VStr "2026-12-30T00:00:00.0Z")])].
Proof. vm_compute. reflexivity. Qed.

(** ** A failed fetch *)

(** When the first answer carries a status from 400 to 599, the error is
    logged by the handler of [squarespace_orders_json] and the function then
    reads its local [orders], which was never bound. *)
Lemma squarespace_orders_json_unbound (h : host) (s : state) creds d code body :
  1 <= year h <= 9999 ->
  environ h !! "SQUARESPACE_API_KEY" = Some creds ->
  recursion_limit h = S d ->
  (forall ps,
     remote h (requests s) (Request orders_api_endpoint (api_headers ("Bearer " +:+ creds)) ps)
     = Response code body) ->
  400 <= code < 600 ->
  exists s',
    squarespace_orders_json h s = (Raise (UnboundLocalError "orders"), s')
    /\ log s' = log s ++ [(ERROR, MsgExn "Failed to get new orders: " (HTTPError code))].
Proof.
  intros Hy Ec Ed Er Hc. unfold squarespace_orders_json, date_isoformat.
  replace (1 <=? year h) with true by (symmetry; apply Z.leb_le; lia).
  replace (year h <=? 9999) with true by (symmetry; apply Z.leb_le; lia).
  cbn [andb]. rewrite !bind_lift_ret, Ed.
  unfold bind at 1. unfold try_except. unfold bind at 1.
  cbn [squarespace_items]. unfold os_environ_get. rewrite Ec. cbn [bearer].
  rewrite bind_lift_ret. unfold bind at 1. unfold requests_get. rewrite Er.
  unfold raise_for_status.
  replace (400 <=? code) with true by (symmetry; apply Z.leb_le; lia).
  replace (code <? 600) with true by (symmetry; apply Z.ltb_lt; lia).
  cbn. eexists. split; reflexivity.
Qed.

(** C2: on a host whose API answers 404, [squarespace_orders_json] logs the
    failure and then raises [UnboundLocalError] for its local [orders]: no
    result reaches the caller, and [main] passes the exception on. *)
Theorem squarespace_orders_json_raises_on_404 :
  fst (squarespace_orders_json Sample.host_not_found Sample.start)
    = Raise (UnboundLocalError "orders")
  /\ log (snd (squarespace_orders_json Sample.host_not_found Sample.start))
    = [(ERROR, MsgExn "Failed to get new orders: " (HTTPError 404))]
  /\ fst (main Sample.host_not_found Sample.start)
    = Raise (UnboundLocalError "orders").
Proof. vm_compute. repeat split. Qed.

(** A network-level exception is not an [HTTPError]: it leaves
    [squarespace_orders_json] as it was raised, without a log line. *)
Example squarespace_orders_json_network_failure :
  let h := Host Sample.environment 2026 1000 (fun _ _ => NetworkFailure) (fun _ => None)
                Sample.text_key in
  fst (squarespace_orders_json h Sample.start) = Raise ConnectionError
  /\ log (snd (squarespace_orders_json h Sample.start)) = [].
Proof. vm_compute. split; reflexivity. Qed.

(** A status that is neither 200 nor an error for [raise_for_status] is the
    one failure that comes back as a value: [False], after an error and a
    warning in the log. *)
Example squarespace_orders_json_no_content :
  let h := Host Sample.environment 2026 1000
                (fun _ _ => Response 204 (Some (VDict []))) (fun _ => None) Sample.text_key in
  fst (squarespace_orders_json h Sample.start) = Ret (VBool false)
  /\ log (snd (squarespace_orders_json h Sample.start))
     = [(ERROR, Msg "Return status from response was requests.get was NOT OK: 204");
        (WARNING, Msg "No orders since the beginning of the year")].
Proof. vm_compute. split; reflexivity. Qed.

(** ** Keys of the store *)

Lemma keyed_own h r k : store_key h r = Ret k -> keyed h k r = true.
Proof. intros E. unfold keyed. rewrite E. apply String.eqb_refl. Qed.

Lemma keyed_eq h r k k' : store_key h r = Ret k -> keyed h k' r = true -> k = k'.
Proof. intros E. unfold keyed. rewrite E. apply String.eqb_eq. Qed.

Lemma has_key_app h k t1 t2 :
  has_key h k (t1 ++ t2) = has_key h k t1 || has_key h k t2.
Proof. unfold has_key. apply existsb_app. Qed.

Lemma has_key_In h r k t :
  In r t -> store_key h r = Ret k -> has_key h k t = true.
Proof.
  intros Hr E. unfold has_key. apply existsb_exists. exists r. split; [exact Hr |].
  now apply keyed_own.
Qed.

(** ** Results of [rmap] *)

Lemma rmap_nth {A B} (f : A -> result B) (xs : list A) (ys : list B) i x :
  rmap f xs = Ret ys -> nth_error xs i = Some x ->
  exists y, nth_error ys i = Some y /\ f x = Ret y.
Proof.
  revert ys i. induction xs as [| a rest IH]; intros ys i E Hx.
  - destruct i; discriminate.
  - simpl in E. destruct (f a) as [b | e] eqn:Ea; [| discriminate]. simpl in E.
    destruct (rmap f rest) as [bs | e] eqn:Er; [| discriminate]. simpl in E.
    inversion E. subst ys. destruct i as [| i]; simpl in Hx |- *.
    + inversion Hx. subst. eauto.
    + eapply IH; eauto.
Qed.

Lemma rmap_first_raise {A B} (f : A -> result B) (before : list A) x after e :
  (forall y, In y before -> exists v, f y = Ret v) ->
  f x = Raise e ->
  rmap f (before ++ x :: after) = Raise e.
Proof.
  intros Hb Hx. induction before as [| a rest IH]; simpl.
  - now rewrite Hx.
  - destruct (Hb a (or_introl eq_refl)) as [v Ev]. rewrite Ev. simpl.
    rewrite IH; [reflexivity |]. intros y Hy. apply Hb. now right.
Qed.

Lemma rmap_In {A B} (f : A -> result B) (xs : list A) (ys : list B) x :
  rmap f xs = Ret ys -> In x xs -> exists y, f x = Ret y /\ In y ys.
Proof.
  revert ys. induction xs as [| a rest IH]; intros ys E Hx; [destruct Hx |].
  simpl in E. destruct (f a) as [b | e] eqn:Ea; [| discriminate]. simpl in E.
  destruct (rmap f rest) as [bs | e] eqn:Er; [| discriminate]. simpl in E.
  inversion E. subst ys. destruct Hx as [-> | Hx].
  - exists b. split; [exact Ea | now left].
  - destruct (IH bs eq_refl Hx) as [y [Ey Hy]]. exists y. split; [exact Ey | now right].
Qed.

Lemma for_each_raise {A} (body : A -> M unit) (before : list A) x after s s1 e s2 :
  for_each before body s = (Ret tt, s1) ->
  body x s1 = (Raise e, s2) ->
  for_each (before ++ x :: after) body s = (Raise e, s2).
Proof.
  revert s. induction before as [| a rest IH]; intros s Eb Ex; simpl in *.
  - inversion Eb. subst. now apply bind_raise.
  - unfold bind in Eb |- *. destruct (body a s) as [[[] | e'] s'] eqn:Ea.
    + now apply IH.
    + discriminate.
Qed.

(** ** One line item *)

Lemma line_item_row_inv payload line_item r :
  line_item_row payload line_item = Ret r ->
  exists vo values,
    variant_options_of line_item = Ret vo
    /\ rmap (eval_field payload line_item vo) values_tuple = Ret values
    /\ rmap adapt values = Ret r.
Proof.
  unfold line_item_row, line_item_values. intros E.
  destruct (variant_options_of line_item) as [vo | e]; [| discriminate].
  cbn [rbind] in E.
  destruct (rmap (eval_field payload line_item vo) values_tuple) as [values | e] eqn:Ev;
    [| discriminate].
  exists vo, values. split; [reflexivity | split; [exact Ev | exact E]].
Qed.

(** What the body of the inner loop does with a line item that yields the
    row [r], which the table takes under key [k], on an open connection [c]. *)
Lemma insert_line_item_row h payload line_item r k s c :
  line_item_row payload line_item = Ret r ->
  store_key h r = Ret k ->
  conn s = Some c ->
  insert_line_item h payload line_item s =
    if failed c then
      (Ret tt,
       State (requests s) (log s) (root_handlers s) (root_level s)
             (stdout s ++ [MsgExn "Some error in the transaction: " InFailedSqlTransaction])
             (table s) (conn s))
    else if has_key h k (table s ++ pending c) then
      (Ret tt,
       State (requests s) (log s) (root_handlers s) (root_level s)
             (stdout s ++ [MsgExn "Caught duplicate lineitem, skipping: " UniqueViolation])
             (table s) (Some (Session (pending c) true)))
    else (Ret tt, set_conn (Some (Session (pending c ++ [r]) false)) s).
Proof.
  intros Er Ek Ec. destruct (line_item_row_inv _ _ _ Er) as [vo [values [Evo [Ev Ea]]]].
  unfold insert_line_item. rewrite Evo, bind_lift_ret.
  unfold try_except. rewrite Ev, bind_lift_ret. unfold cursor_execute.
  rewrite Ea, Ec.
  destruct (failed c); [unfold print; now rewrite Ec |].
  rewrite Ek.
  destruct (has_key h k (table s ++ pending c)); reflexivity.
Qed.

(** A line item whose row is already stored: the violation is printed as a
    skipped duplicate, or, in a transaction that is already aborted, the
    refusal is printed as an error of the transaction. *)
Lemma insert_line_item_stored h payload line_item r s c :
  line_item_row payload line_item = Ret r ->
  conn s = Some c ->
  In r (table s) ->
  store_ok h (table s) ->
  insert_line_item h payload line_item s =
    (Ret tt,
     State (requests s) (log s) (root_handlers s) (root_level s)
           (stdout s ++ stored_lines (failed c) [line_item]) (table s)
           (Some (Session (pending c) true))).
Proof.
  intros Er Ec Hin Hok. destruct (Hok r Hin) as [k [Ek _]].
  rewrite (insert_line_item_row _ _ _ _ _ _ _ Er Ek Ec). cbn [stored_lines].
  destruct c as [p f]. cbn [failed pending]. destruct f.
  - now rewrite Ec.
  - rewrite has_key_app, (has_key_In _ _ _ _ Hin Ek). reflexivity.
Qed.

Lemma stored_lines_length f line_items :
  List.length (stored_lines f line_items) = List.length line_items.
Proof.
  revert f. induction line_items as [| li rest IH]; intros f; [reflexivity |].
  simpl. now rewrite IH.
Qed.

(** The inner loop over line items whose rows are all stored: nothing but
    printed lines, and an unchanged list of pending rows. *)
Lemma for_each_stored h payload line_items :
  forall s c,
    conn s = Some c ->
    store_ok h (table s) ->
    (forall li, In li line_items ->
       exists r, line_item_row payload li = Ret r /\ In r (table s)) ->
    exists f,
      for_each line_items (insert_line_item h payload) s =
        (Ret tt,
         State (requests s) (log s) (root_handlers s) (root_level s)
               (stdout s ++ stored_lines (failed c) line_items) (table s)
               (Some (Session (pending c) f))).
Proof.
  induction line_items as [| li rest IH]; intros s c Ec Hok Hall.
  - exists (failed c). simpl. unfold ret. rewrite app_nil_r.
    destruct s, c; simpl in *; subst; reflexivity.
  - destruct (Hall li (or_introl eq_refl)) as [r [Er Hin]].
    pose proof (insert_line_item_stored _ _ _ _ _ _ Er Ec Hin Hok) as E1.
    cbn [for_each]. rewrite (bind_ret _ _ _ _ _ E1).
    match type of E1 with
    | _ = (_, ?s1) =>
        destruct (IH s1 (Session (pending c) true)) as [f E2];
          [reflexivity | exact Hok | intros li' Hli'; apply Hall; now right |]
    end.
    exists f. rewrite E2.
    cbn [stored_lines requests log root_handlers root_level stdout table failed pending].
    rewrite <- app_assoc. reflexivity.
Qed.

(** The inner loop over line items whose rows are new to the store and to
    each other: every row joins the pending rows. *)
Lemma for_each_fresh h payload line_items :
  forall s p rows,
    conn s = Some (Session p false) ->
    rmap (line_item_row payload) line_items = Ret rows ->
    fresh_rows h (table s ++ p) rows = true ->
    for_each line_items (insert_line_item h payload) s =
      (Ret tt, set_conn (Some (Session (p ++ rows) false)) s).
Proof.
  induction line_items as [| li rest IH]; intros s p rows Ec Er Hf.
  - simpl in Er. inversion Er. subst rows. simpl. unfold ret, set_conn.
    rewrite app_nil_r. destruct s; simpl in *; now subst.
  - simpl in Er. destruct (line_item_row payload li) as [r | e] eqn:Eli; [| discriminate].
    simpl in Er. destruct (rmap (line_item_row payload) rest) as [rs | e] eqn:Ers;
      [| discriminate].
    simpl in Er. inversion Er. subst rows. simpl in Hf.
    destruct (store_key h r) as [k | e] eqn:Ek; [| discriminate].
    apply andb_true_iff in Hf as [Hk Hrest]. apply negb_true_iff in Hk.
    cbn [for_each]. unfold bind.
    rewrite (insert_line_item_row _ _ _ _ _ _ _ Eli Ek Ec). cbn [failed pending].
    rewrite Hk.
    rewrite (IH _ (p ++ [r]) rs); [| reflexivity | reflexivity |].
    + unfold set_conn. rewrite <- app_assoc. reflexivity.
    + unfold set_conn. cbn [table]. rewrite app_assoc. exact Hrest.
Qed.

(** ** One order, and a batch of orders *)

Lemma insert_order_stored h payload line_items s :
  conn s = fresh_session ->
  store_ok h (table s) ->
  line_items_of payload = Ret line_items ->
  (forall li, In li line_items ->
     exists r, line_item_row payload li = Ret r /\ In r (table s)) ->
  insert_order h payload s =
    (Ret tt,
     State (requests s) (log s) (root_handlers s) (root_level s)
           (stdout s ++ stored_lines false line_items) (table s) fresh_session).
Proof.
  intros Ec Hok El Hall. unfold insert_order. rewrite El, bind_lift_ret.
  destruct (for_each_stored h payload line_items s _ Ec Hok Hall) as [f E].
  rewrite (bind_ret _ _ _ _ _ E). unfold conn_commit. cbn.
  destruct f; [reflexivity |]. unfold set_store. cbn. now rewrite app_nil_r.
Qed.

Lemma for_each_order_stored h orders :
  forall s,
    conn s = fresh_session ->
    store_ok h (table s) ->
    stored (table s) orders ->
    for_each orders (insert_order h) s =
      (Ret tt,
       State (requests s) (log s) (root_handlers s) (root_level s)
             (stdout s ++ rerun_output orders) (table s) fresh_session).
Proof.
  induction orders as [| payload rest IH]; intros s Ec Hok Hst.
  - simpl. unfold ret. rewrite app_nil_r.
    destruct s; simpl in *; now subst.
  - destruct (Hst payload (or_introl eq_refl)) as [lis [El Hall]].
    pose proof (insert_order_stored _ _ _ _ Ec Hok El Hall) as E.
    cbn [for_each rerun_output]. rewrite (bind_ret _ _ _ _ _ E), El.
    rewrite IH; [| reflexivity | exact Hok | intros p Hp; apply Hst; now right].
    cbn. now rewrite <- app_assoc.
Qed.

Lemma insert_items_stored (h : host) (s : state) (orders : list value) :
  db_connect h (db_conn_string h) = None ->
  store_ok h (table s) ->
  stored (table s) orders ->
  insert_items h (VList orders) s =
    (Ret (VInt 0),
     State (requests s) (log s) (root_handlers s) (root_level s)
           (stdout s ++ rerun_output orders ++ [Msg "Successful load out"])
           (table s) None).
Proof.
  intros Ed Hok Hst. unfold insert_items, psycopg2_connect.
  unfold bind at 1. rewrite Ed. cbn [iterate]. rewrite bind_lift_ret.
  rewrite (bind_ret _ _ _ _ _
             (for_each_order_stored h orders (set_conn fresh_session s)
                eq_refl Hok Hst)).
  cbn. now rewrite <- app_assoc.
Qed.

Lemma insert_order_clean h payload line_items rows s :
  conn s = fresh_session ->
  line_items_of payload = Ret line_items ->
  rmap (line_item_row payload) line_items = Ret rows ->
  fresh_rows h (table s) rows = true ->
  insert_order h payload s = (Ret tt, set_store (table s ++ rows) fresh_session s).
Proof.
  intros Ec El Er Hf. unfold insert_order. rewrite El, bind_lift_ret.
  rewrite (bind_ret _ _ _ _ _
             (for_each_fresh h payload line_items s [] rows Ec Er
                ltac:(now rewrite app_nil_r))).
  reflexivity.
Qed.

Lemma for_each_order_clean h orders :
  forall s t',
    conn s = fresh_session ->
    clean_batch h (table s) orders = Some t' ->
    for_each orders (insert_order h) s = (Ret tt, set_store t' fresh_session s).
Proof.
  induction orders as [| payload rest IH]; intros s t' Ec Hc; simpl in Hc.
  - inversion Hc. subst t'. simpl. unfold ret, set_store.
    destruct s; simpl in *; now subst.
  - destruct (line_items_of payload) as [lis | e] eqn:El; [| discriminate].
    destruct (rmap (line_item_row payload) lis) as [rows | e] eqn:Er; [| discriminate].
    destruct (fresh_rows h (table s) rows) eqn:Hf; [| discriminate].
    cbn [for_each].
    rewrite (bind_ret _ _ _ _ _ (insert_order_clean _ _ _ _ _ Ec El Er Hf)).
    rewrite (IH _ t'); [reflexivity | reflexivity | exact Hc].
Qed.

(** A batch in which every insert succeeds ends with the table
    [clean_batch] computes, committed order by order. *)
Lemma insert_items_clean (h : host) (s : state) (orders : list value) t' :
  db_connect h (db_conn_string h) = None ->
  clean_batch h (table s) orders = Some t' ->
  insert_items h (VList orders) s =
    (Ret (VInt 0),
     State (requests s) (log s) (root_handlers s) (root_level s)
           (stdout s ++ [Msg "Successful load out"]) t' None).
Proof.
  intros Ed Hc. unfold insert_items, psycopg2_connect.
  unfold bind at 1. rewrite Ed. cbn [iterate]. rewrite bind_lift_ret.
  rewrite (bind_ret _ _ _ _ _
             (for_each_order_clean h orders (set_conn fresh_session s) t' eq_refl Hc)).
  reflexivity.
Qed.

Lemma clean_batch_In h orders :
  forall t t',
    clean_batch h t orders = Some t' ->
    (forall r, In r t -> In r t')
    /\ forall payload line_items li r,
         In payload orders ->
         line_items_of payload = Ret line_items ->
         In li line_items ->
         line_item_row payload li = Ret r ->
         In r t'.
Proof.
  induction orders as [| o rest IH]; intros t t' Hc; simpl in Hc.
  - inversion Hc. subst. split; [auto | intros ? ? ? ? []].
  - destruct (line_items_of o) as [lis | e] eqn:El; [| discriminate].
    destruct (rmap (line_item_row o) lis) as [rows | e] eqn:Er; [| discriminate].
    destruct (fresh_rows h t rows); [| discriminate].
    destruct (IH _ _ Hc) as [Hkeep Hnew]. split.
    + intros r Hr. apply Hkeep. apply in_or_app. now left.
    + intros payload lis' li r [<- | Hp] El' Hli Erow.
      * rewrite El in El'. inversion El'. subst lis'.
        destruct (rmap_In _ _ _ _ Er Hli) as [r' [Er' Hr']].
        rewrite Erow in Er'. inversion Er'. subst r'.
        apply Hkeep. apply in_or_app. now right.
      * eapply Hnew; eauto.
Qed.

Lemma clean_batch_row h orders :
  forall t t',
    clean_batch h t orders = Some t' ->
    forall payload line_items li,
      In payload orders ->
      line_items_of payload = Ret line_items ->
      In li line_items ->
      exists r, line_item_row payload li = Ret r.
Proof.
  induction orders as [| o rest IH]; intros t t' Hc payload lis' li Hp El Hli;
    [destruct Hp |].
  simpl in Hc. destruct (line_items_of o) as [lis | e] eqn:Elo; [| discriminate].
  destruct (rmap (line_item_row o) lis) as [rows | e] eqn:Er; [| discriminate].
  destruct (fresh_rows h t rows); [| discriminate].
  destruct Hp as [<- | Hp].
  - rewrite El in Elo. inversion Elo. subst lis.
    destruct (rmap_In _ _ _ _ Er Hli) as [r [Erow _]]. eauto.
  - eapply IH; eauto.
Qed.

(** ** The persister refuses to start without a connection *)

(** C5: when the initial connection cannot be established, [insert_items]
    returns at once the structured error result (status code 500 and a body
    carrying the connection error), and the state, the store included, is
    left as it was: no insert is attempted. *)
Theorem insert_items_connection_error (h : host) (items : value) (s : state)
    (text : string) :
  db_connect h (db_conn_string h) = Some text ->
  insert_items h items s =
    (Ret (VDict [("statusCode", VInt 500);
                 ("body", VStr (json_dumps
                                  (VStr ("Database connection error: " +:+ text))))]),
     s).
Proof.
  intros E. unfold insert_items, psycopg2_connect, bind. now rewrite E.
Qed.

Lemma insert_items_connection_error_witness :
  db_connect Sample.host_no_database (db_conn_string Sample.host_no_database)
    = Some "connection refused"
  /\ insert_items Sample.host_no_database (VList Sample.batch) Sample.start =
       (Ret (VDict [("statusCode", VInt 500);
                    ("body", VStr (json_dumps
                       (VStr ("Database connection error: " +:+ "connection refused"))))]),
        Sample.start).
Proof.
  split; [reflexivity |].
  exact (insert_items_connection_error Sample.host_no_database (VList Sample.batch)
           Sample.start "connection refused" eq_refl).
Defined.

(** ** The credential gate *)

(** C9: without an API credential in the environment, the entry point (and
    the handler over it) returns 1 at once, which is the exit status of the
    process; the only effect is the critical log line: no request is issued
    and the store is not touched. *)
Theorem main_without_credential (h : host) (s : state) (event context : value) :
  environ h !! "SQUARESPACE_API_KEY" = None ->
  main h s =
    (Ret (VInt 1),
     State (requests s)
           (log s ++ [(CRITICAL, Msg "Failed to pass SQUARESPACE_API_KEY. Exiting")])
           true (root_level s) (stdout s) (table s) (conn s))
  /\ handler h event context s = main h s
  /\ requests (snd (main h s)) = requests s
  /\ exit_status (VInt 1) = 1.
Proof.
  intros E. unfold handler, main, os_environ_get. rewrite E. now cbn.
Qed.

Lemma main_without_credential_witness :
  environ Sample.host_no_credential !! "SQUARESPACE_API_KEY" = None
  /\ main Sample.host_no_credential Sample.start =
       (Ret (VInt 1),
        State (requests Sample.start)
              (log Sample.start
               ++ [(CRITICAL, Msg "Failed to pass SQUARESPACE_API_KEY. Exiting")])
              true (root_level Sample.start) (stdout Sample.start)
              (table Sample.start) (conn Sample.start))
  /\ handler Sample.host_no_credential VNone VNone Sample.start
     = main Sample.host_no_credential Sample.start
  /\ requests (snd (main Sample.host_no_credential Sample.start))
     = requests Sample.start
  /\ exit_status (VInt 1) = 1.
Proof.
  split; [reflexivity |].
  exact (main_without_credential Sample.host_no_credential Sample.start VNone VNone
           eq_refl).
Defined.

(** ** What the entry point reports *)

(** Whatever the persister answers, a run of [main] that returns gives the
    credential failure 1 or the fixed success response. *)
Lemma main_returns (h : host) (s : state) v s' :
  main h s = (Ret v, s') ->
  v = VInt 1 \/
  v = VDict [("statusCode", VInt 200);
             ("body", VStr (json_dumps (VStr "Data inserted successfully!")))].
Proof.
  unfold main. destruct (os_environ_get h "SQUARESPACE_API_KEY").
  - unfold bind. intros E.
    repeat match type of E with
           | context [match ?m ?st with _ => _ end] =>
               destruct (m st) as [[? | ?] ?]; try discriminate
           end.
    inversion E. now right.
  - intros E. inversion E. now left.
Qed.

(** C6: on a host whose database refuses the connection, the persister
    answers with the 500 response, and the handler still returns the
    response 200, Data inserted successfully; the connection error is in no
    log line either. *)
Theorem handler_hides_connection_error :
  fst (insert_items Sample.host_no_database (VList []) Sample.start)
    = Ret (VDict [("statusCode", VInt 500);
                  ("body", VStr (json_dumps
                     (VStr "Database connection error: connection refused")))])
  /\ fst (handler Sample.host_no_database VNone VNone Sample.start)
    = Ret (VDict [("statusCode", VInt 200);
                  ("body", VStr (json_dumps (VStr "Data inserted successfully!")))])
  /\ log (snd (handler Sample.host_no_database VNone VNone Sample.start))
    = [(WARNING, Msg "No orders since the beginning of the year")].
Proof. vm_compute. repeat split. Qed.

(** ** A duplicate among the line items of an order *)

(** An order of two line items on a fresh transaction: when the insert of
    the first succeeds and the insert of the second violates the key, the
    violation is printed and the commit leaves the table without the row of
    the first. *)
Lemma insert_order_duplicate_second h payload a b ra rb ka kb s :
  conn s = fresh_session ->
  line_items_of payload = Ret [a; b] ->
  line_item_row payload a = Ret ra ->
  line_item_row payload b = Ret rb ->
  store_key h ra = Ret ka ->
  has_key h ka (table s) = false ->
  store_key h rb = Ret kb ->
  has_key h kb (table s ++ [ra]) = true ->
  insert_order h payload s =
    (Ret tt,
     State (requests s) (log s) (root_handlers s) (root_level s)
           (stdout s ++ [MsgExn "Caught duplicate lineitem, skipping: " UniqueViolation])
           (table s) fresh_session).
Proof.
  intros Ec El Ea Eb Eka Hka Ekb Hkb. unfold insert_order.
  rewrite El, bind_lift_ret. cbn [for_each]. unfold bind at 1. unfold bind at 1.
  rewrite (insert_line_item_row _ _ _ _ _ _ _ Ea Eka Ec). cbn [failed pending].
  rewrite app_nil_r, Hka. unfold bind at 1.
  erewrite insert_line_item_row; [| exact Eb | exact Ekb | reflexivity].
  cbn [failed pending set_conn table app]. rewrite Hkb. reflexivity.
Qed.

(** With the violation first, the second insert is refused by the aborted
    transaction, whatever its key. *)
Lemma insert_order_duplicate_first h payload a b ra rb ka kb s :
  conn s = fresh_session ->
  line_items_of payload = Ret [a; b] ->
  line_item_row payload a = Ret ra ->
  line_item_row payload b = Ret rb ->
  store_key h ra = Ret ka ->
  has_key h ka (table s) = true ->
  store_key h rb = Ret kb ->
  insert_order h payload s =
    (Ret tt,
     State (requests s) (log s) (root_handlers s) (root_level s)
           (stdout s ++ [MsgExn "Caught duplicate lineitem, skipping: " UniqueViolation;
                         MsgExn "Some error in the transaction: " InFailedSqlTransaction])
           (table s) fresh_session).
Proof.
  intros Ec El Ea Eb Eka Hka Ekb. unfold insert_order.
  rewrite El, bind_lift_ret. cbn [for_each]. unfold bind at 1. unfold bind at 1.
  rewrite (insert_line_item_row _ _ _ _ _ _ _ Ea Eka Ec). cbn [failed pending].
  rewrite app_nil_r, Hka. unfold bind at 1.
  erewrite insert_line_item_row; [| exact Eb | exact Ekb | reflexivity].
  cbn. rewrite <- app_assoc. reflexivity.
Qed.

(** C4: the store holds li-2; an order brings li-1 and li-2.  The insert of
    li-1 succeeds, the insert of li-2 raises the uniqueness violation, which
    is caught and printed, and the commit that follows rolls the aborted
    transaction back: [insert_items] returns 0 and li-1 is not in the store.
    With the two line items in the other order, the violation comes first
    and the insert of li-1 is refused by the aborted transaction. *)
Theorem insert_items_loses_row_beside_duplicate :
  has_key (Sample.host_with []) "li-2" (table Duplicate.before) = true
  /\ (let run := insert_items (Sample.host_with [])
                   (VList [Duplicate.fresh_then_stored]) Duplicate.before in
      fst run = Ret (VInt 0)
      /\ stdout (snd run) =
           stdout Duplicate.before ++
           [MsgExn "Caught duplicate lineitem, skipping: " UniqueViolation;
            Msg "Successful load out"]
      /\ has_key (Sample.host_with []) "li-1" (table (snd run)) = false
      /\ table (snd run) = table Duplicate.before)
  /\ (let run := insert_items (Sample.host_with [])
                   (VList [Duplicate.stored_then_fresh]) Duplicate.before in
      fst run = Ret (VInt 0)
      /\ stdout (snd run) =
           stdout Duplicate.before ++
           [MsgExn "Caught duplicate lineitem, skipping: " UniqueViolation;
            MsgExn "Some error in the transaction: " InFailedSqlTransaction;
            Msg "Successful load out"]
      /\ has_key (Sample.host_with []) "li-1" (table (snd run)) = false).
Proof. vm_compute. repeat split. Qed.

(** ** Running the persister again *)

(** C3: the sample batch, order 1001 with the line items li-1 and li-2 and
    order 1002 with li-3, is inserted twice.  The second run returns 0 and
    leaves the table of the first, with one row for each of the three ids.
    Of the stored line items it prints li-1 and li-3, the first of their
    orders, as duplicates that are skipped; the violation of li-1 has
    aborted the transaction of order 1001, so li-2 is not skipped as a
    duplicate: its insert is refused and printed as an error of the
    transaction. *)
Theorem insert_items_rerun_reports_transaction_error :
  let h := Sample.host_with [] in
  let first := insert_items h (VList Sample.batch) Sample.start in
  let second := insert_items h (VList Sample.batch) (snd first) in
  fst first = Ret (VInt 0)
  /\ stdout (snd first) = [Msg "Successful load out"]
  /\ fst second = Ret (VInt 0)
  /\ table (snd second) = table (snd first)
  /\ count_key h "li-1" (table (snd second)) = 1%nat
  /\ count_key h "li-2" (table (snd second)) = 1%nat
  /\ count_key h "li-3" (table (snd second)) = 1%nat
  /\ log (snd second) = []
  /\ stdout (snd second) =
       stdout (snd first) ++
       [MsgExn "Caught duplicate lineitem, skipping: " UniqueViolation;
        MsgExn "Some error in the transaction: " InFailedSqlTransaction;
        MsgExn "Caught duplicate lineitem, skipping: " UniqueViolation;
        Msg "Successful load out"].
Proof. vm_compute. repeat split. Qed.

(** X21: on a store in which every row has a key of its own and which
    holds the rows of all line items of a batch, [insert_items] on that
    batch returns 0, logs nothing and leaves the table as it was, so each
    of the ids is still the key of exactly one row.  What it prints is
    [rerun_output]: in each order the first line item as a duplicate that
    is skipped, every later one as an error of the transaction, and the
    closing line after the last order. *)
Theorem insert_items_idempotent (h : host) (s : state) (orders : list value) :
  db_connect h (db_conn_string h) = None ->
  store_ok h (table s) ->
  stored (table s) orders ->
  exists s',
    insert_items h (VList orders) s = (Ret (VInt 0), s')
    /\ table s' = table s
    /\ log s' = log s
    /\ stdout s' = stdout s ++ rerun_output orders ++ [Msg "Successful load out"]
    /\ forall payload line_items li r,
         In payload orders ->
         line_items_of payload = Ret line_items ->
         In li line_items ->
         line_item_row payload li = Ret r ->
         exists k, store_key h r = Ret k /\ count_key h k (table s') = 1%nat.
Proof.
  intros Ed Hok Hst.
  eexists. split; [exact (insert_items_stored h s orders Ed Hok Hst) |].
  cbn [table log stdout]. repeat split.
  intros payload lis li r Hp El Hli Er.
  destruct (Hst payload Hp) as [lis' [El' Hall]].
  rewrite El in El'. inversion El'. subst lis'.
  destruct (Hall li Hli) as [r' [Er' Hin]].
  rewrite Er in Er'. inversion Er'. subst r'.
  now apply Hok.
Qed.

Lemma after_batch_ok : store_ok (Sample.host_with []) (table Sample.after_batch).
Proof.
  intros r Hr. vm_compute in Hr.
  destruct Hr as [<- | [<- | [<- | []]]]; eexists; vm_compute; split; reflexivity.
Defined.

Lemma after_batch_stored : stored (table Sample.after_batch) Sample.batch.
Proof.
  intros payload [<- | [<- | []]]; eexists; (split; [reflexivity |]).
  - intros li [<- | [<- | []]]; eexists; (split; [reflexivity |]);
      vm_compute; auto.
  - intros li [<- | []]; eexists; (split; [reflexivity |]); vm_compute; auto.
Defined.

Lemma insert_items_idempotent_witness :
  exists s',
    insert_items (Sample.host_with []) (VList Sample.batch) Sample.after_batch
      = (Ret (VInt 0), s')
    /\ table s' = table Sample.after_batch
    /\ log s' = log Sample.after_batch
    /\ stdout s' =
         stdout Sample.after_batch ++ rerun_output Sample.batch
         ++ [Msg "Successful load out"]
    /\ forall payload line_items li r,
         In payload Sample.batch ->
         line_items_of payload = Ret line_items ->
         In li line_items ->
         line_item_row payload li = Ret r ->
         exists k, store_key (Sample.host_with []) r = Ret k
                   /\ count_key (Sample.host_with []) k (table s') = 1%nat.
Proof.
  exact (insert_items_idempotent (Sample.host_with []) Sample.after_batch Sample.batch
           eq_refl after_batch_ok after_batch_stored).
Defined.

Example rerun_sample :
  List.length (table Sample.after_batch) = 3%nat
  /\ rerun_output Sample.batch =
       [MsgExn "Caught duplicate lineitem, skipping: " UniqueViolation;
        MsgExn "Some error in the transaction: " InFailedSqlTransaction;
        MsgExn "Caught duplicate lineitem, skipping: " UniqueViolation].
Proof. vm_compute. repeat split. Qed.

(** *** Two runs in a row *)

Lemma count_key_app h k t1 t2 :
  count_key h k (t1 ++ t2) = (count_key h k t1 + count_key h k t2)%nat.
Proof. unfold count_key. now rewrite List.filter_app, List.length_app. Qed.

Lemma count_key_cons h k r t :
  count_key h k (r :: t) =
    ((if keyed h k r then 1 else 0) + count_key h k t)%nat.
Proof. unfold count_key. simpl. destruct (keyed h k r); reflexivity. Qed.

Lemma count_key_absent h k t : has_key h k t = false -> count_key h k t = 0%nat.
Proof.
  induction t as [| r rest IH]; [reflexivity |].
  unfold has_key. simpl. intros H. apply orb_false_iff in H as [Hr Hrest].
  rewrite count_key_cons, Hr. now apply IH.
Qed.

Lemma store_ok_snoc h t r k :
  store_ok h t ->
  store_key h r = Ret k ->
  has_key h k t = false ->
  store_ok h (t ++ [r]).
Proof.
  intros Hok Ek Hk r' Hin. apply in_app_or in Hin as [Hin | [<- | []]].
  - destruct (Hok r' Hin) as [k' [Ek' Hc]]. exists k'. split; [exact Ek' |].
    rewrite count_key_app, Hc, count_key_cons.
    destruct (keyed h k' r) eqn:E; [| reflexivity].
    pose proof (keyed_eq _ _ _ _ Ek E) as Ekk. subst k'.
    rewrite (has_key_In _ _ _ _ Hin Ek') in Hk. discriminate.
  - exists k. split; [exact Ek |].
    rewrite count_key_app, (count_key_absent _ _ _ Hk), count_key_cons,
      (keyed_own _ _ _ Ek).
    reflexivity.
Qed.

Lemma store_ok_fresh h rows :
  forall t, store_ok h t -> fresh_rows h t rows = true -> store_ok h (t ++ rows).
Proof.
  induction rows as [| r rest IH]; intros t Hok Hf.
  - now rewrite app_nil_r.
  - simpl in Hf. destruct (store_key h r) as [k | e] eqn:Ek; [| discriminate].
    apply andb_true_iff in Hf as [Hk Hrest]. apply negb_true_iff in Hk.
    change (t ++ r :: rest) with (t ++ [r] ++ rest). rewrite app_assoc.
    apply IH; [now apply (store_ok_snoc h t r k) | exact Hrest].
Qed.

Lemma clean_batch_store_ok h orders :
  forall t t', store_ok h t -> clean_batch h t orders = Some t' -> store_ok h t'.
Proof.
  induction orders as [| o rest IH]; intros t t' Hok Hc; simpl in Hc.
  - now inversion Hc; subst.
  - destruct (line_items_of o) as [lis | e]; [| discriminate].
    destruct (rmap (line_item_row o) lis) as [rows | e]; [| discriminate].
    destruct (fresh_rows h t rows) eqn:Hf; [| discriminate].
    eapply IH; [| exact Hc]. now apply store_ok_fresh.
Qed.

Lemma clean_batch_stored h orders t t' :
  clean_batch h t orders = Some t' -> stored t' orders.
Proof.
  intros Hc payload Hp.
  assert (exists lis, line_items_of payload = Ret lis) as [lis El].
  { revert t Hc. induction orders as [| o rest IH]; intros t Hc; [destruct Hp |].
    simpl in Hc. destruct (line_items_of o) as [lis | e] eqn:Elo; [| discriminate].
    destruct (rmap (line_item_row o) lis) as [rows | e]; [| discriminate].
    destruct (fresh_rows h t rows); [| discriminate].
    destruct Hp as [<- | Hp]; [eauto | exact (IH Hp _ Hc)]. }
  exists lis. split; [exact El |]. intros li Hli.
  destruct (clean_batch_row h orders _ _ Hc _ _ _ Hp El Hli) as [r Er].
  exists r. split; [exact Er |].
  destruct (clean_batch_In h orders _ _ Hc) as [_ Hnew].
  exact (Hnew payload lis li r Hp El Hli Er).
Qed.

(** Inserting the same batch twice: when every insert of the first run
    succeeds, the second run returns 0 as well and leaves the table of the
    first, in which each key occurs once. *)
Corollary insert_items_twice (h : host) (s : state) (orders : list value) t' :
  db_connect h (db_conn_string h) = None ->
  store_ok h (table s) ->
  clean_batch h (table s) orders = Some t' ->
  exists s1 s2,
    insert_items h (VList orders) s = (Ret (VInt 0), s1)
    /\ insert_items h (VList orders) s1 = (Ret (VInt 0), s2)
    /\ table s1 = t' /\ table s2 = t' /\ store_ok h t'
    /\ stdout s2 =
         stdout s ++ [Msg "Successful load out"] ++ rerun_output orders
         ++ [Msg "Successful load out"].
Proof.
  intros Ed Hok Hc.
  pose proof (clean_batch_store_ok _ _ _ _ Hok Hc) as Hok'.
  pose proof (clean_batch_stored _ _ _ _ Hc) as Hst.
  eexists.
  rewrite (insert_items_clean h s orders t' Ed Hc).
  match goal with
  | |- exists s2, (_, ?s1) = _ /\ _ =>
      pose proof (insert_items_stored h s1 orders Ed Hok' Hst) as E
  end.
  eexists. split; [reflexivity |]. split; [exact E |].
  cbn [table stdout]. rewrite <- app_assoc.
  split; [reflexivity |]. split; [reflexivity |]. split; [exact Hok' | reflexivity].
Qed.

(** ** Variant options *)

Lemma variant_options_of_dict kvs :
  variant_options_of (VDict kvs) =
    Ret (match assoc "variantOptions" kvs with
         | Some a => VStr (json_dumps a)
         | None => VNone
         end).
Proof.
  unfold variant_options_of. cbn [contains rbind subscript].
  destruct (assoc "variantOptions" kvs); reflexivity.
Qed.

Lemma variant_options_cell payload kvs r :
  line_item_row payload (VDict kvs) = Ret r ->
  cell "variant_options" r =
    Some (match assoc "variantOptions" kvs with
          | Some a => SText (json_dumps a)
          | None => SNull
          end).
Proof.
  intros Er. destruct (line_item_row_inv _ _ _ Er) as [vo [values [Evo [Ev Ea]]]].
  rewrite variant_options_of_dict in Evo. inversion Evo as [Evo']. clear Evo.
  destruct (rmap_nth _ _ _ 19%nat VariantOptions Ev eq_refl) as [v [Hv Efv]].
  cbn [eval_field] in Efv. inversion Efv. subst v.
  destruct (rmap_nth _ _ _ 19%nat vo Ea Hv) as [c [Hc Eadapt]].
  change (cell "variant_options" r) with (nth_error r 19). rewrite Hc. f_equal.
  subst vo. destruct (assoc "variantOptions" kvs) as [a |]; cbn [adapt] in Eadapt.
  - destruct (has_nul (json_dumps a)); [discriminate | now inversion Eadapt].
  - now inversion Eadapt.
Qed.

(** [json.dumps] lays its text out as [json_text] says. *)
Lemma json_dumps_items xs :
  (fix items (l : list value) : string :=
     match l with
     | [] => EmptyString
     | x :: rest =>
         match rest with
         | [] => json_dumps x
         | _ => json_dumps x +:+ ", " +:+ items rest
         end
     end) xs = join ", " (List.map json_dumps xs).
Proof.
  induction xs as [| x rest IH]; [reflexivity |].
  destruct rest as [| y rest]; [reflexivity |].
  rewrite IH. reflexivity.
Qed.

Lemma json_dumps_members kvs :
  (fix members (l : list (string * value)) : string :=
     match l with
     | [] => EmptyString
     | (k, x) :: rest =>
         match rest with
         | [] => dumps_str k +:+ ": " +:+ json_dumps x
         | _ => dumps_str k +:+ ": " +:+ json_dumps x +:+ ", " +:+ members rest
         end
     end) kvs
  = join ", " (List.map (fun kv => dumps_str (fst kv) +:+ ": " +:+ json_dumps (snd kv)) kvs).
Proof.
  induction kvs as [| [k x] rest IH]; [reflexivity |].
  destruct rest as [| y rest]; [reflexivity |].
  rewrite IH. cbn [List.map fst snd join]. now rewrite !append_assoc.
Qed.

Lemma json_dumps_text (v : value) : json_text v (json_dumps v).
Proof.
  induction v as [| [|] | n | s | xs IH | kvs IH] using value_nested_ind;
    try constructor.
  - change (json_dumps (VList xs)) with
      ("[" +:+ (fix items (l : list value) : string :=
                  match l with
                  | [] => EmptyString
                  | x :: rest =>
                      match rest with
                      | [] => json_dumps x
                      | _ => json_dumps x +:+ ", " +:+ items rest
                      end
                  end) xs +:+ "]").
    rewrite json_dumps_items. constructor.
    induction IH as [| x rest Hx _ IHrest]; constructor; assumption.
  - change (json_dumps (VDict kvs)) with
      ("{" +:+ (fix members (l : list (string * value)) : string :=
                  match l with
                  | [] => EmptyString
                  | (k, x) :: rest =>
                      match rest with
                      | [] => dumps_str k +:+ ": " +:+ json_dumps x
                      | _ => dumps_str k +:+ ": " +:+ json_dumps x +:+ ", "
                             +:+ members rest
                      end
                  end) kvs +:+ "}").
    rewrite json_dumps_members. constructor.
    induction IH as [| kv rest Hx _ IHrest]; constructor; [| assumption].
    exists (json_dumps (snd kv)). split; [exact Hx | reflexivity].
Qed.

(** ** A line item without customizations *)

Lemma stays_open_refl s : stays_open s s.
Proof. intros H. exact H. Qed.

Lemma stays_open_trans s1 s2 s3 :
  stays_open s1 s2 -> stays_open s2 s3 -> stays_open s1 s3.
Proof. unfold stays_open. auto. Qed.

Lemma same_table_refl s : same_table s s.
Proof. reflexivity. Qed.

Lemma same_table_trans s1 s2 s3 :
  same_table s1 s2 -> same_table s2 s3 -> same_table s1 s3.
Proof. unfold same_table. congruence. Qed.

Lemma cursor_execute_stays_open h values :
  respects stays_open (cursor_execute h values).
Proof.
  intros s r s' E Ho. unfold cursor_execute in E.
  destruct (rmap adapt values) as [row |]; [| inversion E; subst; exact Ho].
  destruct (conn s) as [c |] eqn:Ec; [| inversion E; subst; now rewrite Ec].
  destruct (failed c); [inversion E; subst; now rewrite Ec |].
  destruct (store_key h row) as [k | e]; [| inversion E; cbn; eauto].
  destruct (has_key h k (table s ++ pending c)); inversion E; cbn; eauto.
Qed.

Lemma cursor_execute_same_table h values :
  respects same_table (cursor_execute h values).
Proof.
  intros s r s' E. unfold cursor_execute in E.
  destruct (rmap adapt values) as [row |]; [| inversion E; reflexivity].
  destruct (conn s) as [c |]; [| inversion E; reflexivity].
  destruct (failed c); [inversion E; reflexivity |].
  destruct (store_key h row) as [k | e]; [| inversion E; reflexivity].
  destruct (has_key h k (table s ++ pending c)); inversion E; reflexivity.
Qed.

Lemma print_stays_open m : respects stays_open (print m).
Proof. intros s r s' E. inversion E. subst. exact (fun H => H). Qed.

Lemma print_same_table m : respects same_table (print m).
Proof. intros s r s' E. inversion E. reflexivity. Qed.

Lemma insert_line_item_stays_open h payload li :
  respects stays_open (insert_line_item h payload li).
Proof.
  unfold insert_line_item.
  apply (respects_bind _ stays_open_trans); [apply (respects_lift _ stays_open_refl) |].
  intros vo. apply (respects_try _ stays_open_trans).
  - respects_with stays_open_refl stays_open_trans
      ltac:(apply cursor_execute_stays_open).
  - intros e recover. destruct e; intros E; inversion E; apply print_stays_open.
Qed.

Lemma insert_line_item_same_table h payload li :
  respects same_table (insert_line_item h payload li).
Proof.
  unfold insert_line_item.
  apply (respects_bind _ same_table_trans); [apply (respects_lift _ same_table_refl) |].
  intros vo. apply (respects_try _ same_table_trans).
  - respects_with same_table_refl same_table_trans
      ltac:(apply cursor_execute_same_table).
  - intros e recover. destruct e; intros E; inversion E; apply print_same_table.
Qed.

Lemma conn_commit_stays_open : respects stays_open conn_commit.
Proof.
  intros s r s' E Ho. unfold conn_commit in E.
  destruct (conn s) as [c |]; [| destruct Ho as [? Ho]; discriminate].
  destruct (failed c); inversion E; cbn; eauto.
Qed.

Lemma insert_order_stays_open h payload :
  respects stays_open (insert_order h payload).
Proof.
  unfold insert_order.
  respects_with stays_open_refl stays_open_trans
    ltac:(first [apply insert_line_item_stays_open | apply conn_commit_stays_open]).
Qed.

Lemma insert_line_item_without_customizations h payload kvs s :
  assoc "customizations" kvs = None ->
  other_fields_present payload (VDict kvs) ->
  insert_line_item h payload (VDict kvs) s = (Raise (KeyError "customizations"), s).
Proof.
  intros En Ho. unfold insert_line_item.
  rewrite variant_options_of_dict, bind_lift_ret. unfold try_except.
  change values_tuple with
    (firstn 27 values_tuple ++ ItemDumps "customizations" :: skipn 28 values_tuple).
  rewrite rmap_first_raise with (e := KeyError "customizations").
  - reflexivity.
  - intros f Hf. cbn in Hf.
    repeat (destruct Hf as [<- | Hf];
            [apply Ho; [repeat first [left; reflexivity | right] | discriminate] |]).
    destruct Hf.
  - cbn [eval_field subscript]. now rewrite En.
Qed.

(** C10: when the loops reach a line item that is a record without the key
    [customizations] (its other fields being readable), [insert_items]
    raises [KeyError] for that key, which no handler catches: the state is
    the one reached before the line item, so the rest of the order and of
    the batch is not processed, the order is not committed, and the
    connection is still open. *)
Theorem insert_items_without_customizations (h : host) (s s1 s2 : state)
    (done todo before after : list value) (payload : value)
    (kvs : list (string * value)) :
  db_connect h (db_conn_string h) = None ->
  for_each done (insert_order h) (set_conn (Some (Session [] false)) s) = (Ret tt, s1) ->
  line_items_of payload = Ret (before ++ VDict kvs :: after) ->
  for_each before (insert_line_item h payload) s1 = (Ret tt, s2) ->
  assoc "customizations" kvs = None ->
  other_fields_present payload (VDict kvs) ->
  insert_items h (VList (done ++ payload :: todo)) s
    = (Raise (KeyError "customizations"), s2)
  /\ is_Some (conn s2)
  /\ table s2 = table s1.
Proof.
  intros Ed Edone El Ebefore En Ho. repeat split.
  - unfold insert_items, psycopg2_connect. unfold bind at 1. rewrite Ed.
    cbn [iterate]. rewrite bind_lift_ret. apply bind_raise.
    apply (for_each_raise _ _ _ _ _ _ _ _ Edone).
    unfold insert_order. rewrite El, bind_lift_ret. apply bind_raise.
    apply (for_each_raise _ _ _ _ _ _ _ _ Ebefore).
    now apply insert_line_item_without_customizations.
  - assert (is_Some (conn s1)) as H1.
    { refine (respects_for_each _ stays_open_refl stays_open_trans _ _
                (insert_order_stays_open h) _ _ _ Edone _).
      cbn. eauto. }
    exact (respects_for_each _ stays_open_refl stays_open_trans _ _
             (insert_line_item_stays_open h payload) _ _ _ Ebefore H1).
  - exact (respects_for_each _ same_table_refl same_table_trans _ _
             (insert_line_item_same_table h payload) _ _ _ Ebefore).
Qed.

Lemma incomplete_others_present :
  other_fields_present Incomplete.payload Sample.without_customizations.
Proof.
  intros vo f Hf Hne. cbn in Hf.
  repeat (destruct Hf as [<- | Hf];
          [first [eexists; reflexivity | contradiction Hne; reflexivity] |]).
  destruct Hf.
Defined.

Lemma insert_items_without_customizations_witness :
  insert_items (Sample.host_with [])
    (VList (Incomplete.done ++ Incomplete.payload :: Incomplete.todo)) Sample.start
    = (Raise (KeyError "customizations"), Incomplete.s2)
  /\ is_Some (conn Incomplete.s2)
  /\ table Incomplete.s2 = table Incomplete.s1.
Proof.
  exact (insert_items_without_customizations (Sample.host_with []) Sample.start
           Incomplete.s1 Incomplete.s2 Incomplete.done Incomplete.todo
           [Sample.line_item "li-3" "ABC" 5] [Sample.line_item "li-6" "MNO" 1]
           Incomplete.payload _
           eq_refl eq_refl eq_refl eq_refl eq_refl incomplete_others_present).
Defined.

Example without_customizations_sample :
  List.length (table Incomplete.s2) = 1%nat
  /\ conn Incomplete.s2
     = Some (Session (match line_item_row Incomplete.payload
                              (Sample.line_item "li-3" "ABC" 5) with
                      | Ret r => [r]
                      | Raise _ => []
                      end) false)
  /\ stdout Incomplete.s2 = [].
Proof. vm_compute. repeat split. Qed.

(** * Further properties of the paginator *)

(** One call of [squarespace_items], case by case. *)
Lemma squarespace_items_unfold h d u key ps s :
  squarespace_items h (S d) u key ps s =
    match environ h !! "SQUARESPACE_API_KEY" with
    | None => (Raise TypeError, s)
    | Some creds =>
        let req := Request u (api_headers ("Bearer " +:+ creds)) ps in
        match remote h (requests s) req with
        | NetworkFailure => (Raise ConnectionError, sent req s)
        | Interrupted => (Raise KeyboardInterrupt, sent req s)
        | Response code body =>
            if (400 <=? code) && (code <? 600)
            then (Raise (HTTPError code), sent req s)
            else
              match body with
              | None => (Raise JSONDecodeError, sent req s)
              | Some json_data =>
                  if code =? 200 then
                    match (a <~ subscript json_data key ;; iterate a) with
                    | Raise e => (Raise e, sent req s)
                    | Ret item_list =>
                        match (p <~ subscript json_data "pagination" ;;
                               subscript p "hasNextPage") with
                        | Raise e => (Raise e, sent req s)
                        | Ret more =>
                            if truthy more then
                              match (p <~ subscript json_data "pagination" ;;
                                     subscript p "nextPageUrl") with
                              | Raise e => (Raise e, sent req s)
                              | Ret next =>
                                  match squarespace_items h d next key VNone (sent req s) with
                                  | (Ret rest, s2) => (list_add item_list rest, s2)
                                  | (Raise e, s2) => (Raise e, s2)
                                  end
                              end
                            else (Ret (VList item_list), sent req s)
                        end
                    end
                  else
                    (Ret (VBool false),
                     logged ERROR
                       (Msg ("Return status from response was requests.get was NOT OK: "
                             +:+ dumps_int code))
                       (sent req s))
              end
        end
    end.
Proof.
  cbn [squarespace_items]. unfold os_environ_get.
  destruct (environ h !! "SQUARESPACE_API_KEY") as [creds |]; [| reflexivity].
  cbn [bearer]. rewrite bind_lift_ret. unfold bind at 1, requests_get. cbv zeta.
  destruct (remote h (requests s) _) as [| code body |];
    [reflexivity | | reflexivity].
  fold (sent (Request u (api_headers ("Bearer " +:+ creds)) ps) s).
  unfold raise_for_status.
  destruct ((400 <=? code) && (code <? 600)); [reflexivity |].
  rewrite bind_lift_ret. destruct body as [json_data |]; [| reflexivity].
  cbn [response_json]. rewrite bind_lift_ret.
  destruct (code =? 200); [| reflexivity].
  destruct (a <~ subscript json_data key ;; iterate a) as [item_list | e];
    [rewrite bind_lift_ret | reflexivity].
  destruct (p <~ subscript json_data "pagination" ;; subscript p "hasNextPage")
    as [more | e]; [rewrite bind_lift_ret | reflexivity].
  destruct (truthy more); [| reflexivity].
  destruct (p <~ subscript json_data "pagination" ;; subscript p "nextPageUrl")
    as [next | e]; [rewrite bind_lift_ret | reflexivity].
  unfold bind.
  destruct (squarespace_items h d next key VNone _) as [[rest | e] s2]; reflexivity.
Qed.

(** X1: without the credential the fetch raises [TypeError] when it builds
    the Authorization header: no request is issued, nothing is logged, and the
    handler of [squarespace_orders_json], which is for [HTTPError], lets the
    exception pass. *)
Theorem fetch_without_credential (h : host) (s : state) (d : nat) :
  environ h !! "SQUARESPACE_API_KEY" = None ->
  1 <= year h <= 9999 ->
  recursion_limit h = S d ->
  (forall u key ps, squarespace_items h (S d) u key ps s = (Raise TypeError, s))
  /\ squarespace_orders_json h s = (Raise TypeError, s).
Proof.
  intros Ec Hy Ed.
  assert (forall u key ps, squarespace_items h (S d) u key ps s = (Raise TypeError, s)) as Hi.
  { intros u key ps. rewrite squarespace_items_unfold. now rewrite Ec. }
  split; [exact Hi |].
  unfold squarespace_orders_json, date_isoformat.
  replace (1 <=? year h) with true by (symmetry; apply Z.leb_le; lia).
  replace (year h <=? 9999) with true by (symmetry; apply Z.leb_le; lia).
  cbn [andb]. rewrite !bind_lift_ret, Ed.
  unfold bind at 1. unfold try_except. unfold bind at 1. now rewrite Hi.
Qed.

Lemma fetch_without_credential_witness :
  (forall u key ps,
     squarespace_items Sample.host_no_credential 1000 u key ps Sample.start
       = (Raise TypeError, Sample.start))
  /\ squarespace_orders_json Sample.host_no_credential Sample.start
     = (Raise TypeError, Sample.start).
Proof.
  exact (fetch_without_credential Sample.host_no_credential Sample.start 999
           eq_refl ltac:(cbn; lia) eq_refl).
Defined.

(** X2: what one call of [squarespace_items] does with an answer that is
    not a page.  A status from 400 to 599 raises [HTTPError] before the body
    is read; otherwise a body that is not JSON raises [JSONDecodeError],
    whatever the status; only then a status other than 200 is logged as an
    error and answered with [False].  A network failure raises
    [ConnectionError].  The request is on the trace in every case. *)
Theorem squarespace_items_first_answer (h : host) (d : nat) (u : value)
    (key : string) (ps : value) (s : state) (creds : string) :
  environ h !! "SQUARESPACE_API_KEY" = Some creds ->
  let req := Request u (api_headers ("Bearer " +:+ creds)) ps in
  let run := squarespace_items h (S d) u key ps s in
  (remote h (requests s) req = NetworkFailure ->
   run = (Raise ConnectionError, sent req s))
  /\ (forall code body,
        remote h (requests s) req = Response code body ->
        400 <= code < 600 ->
        run = (Raise (HTTPError code), sent req s))
  /\ (forall code,
        remote h (requests s) req = Response code None ->
        ~ 400 <= code < 600 ->
        run = (Raise JSONDecodeError, sent req s))
  /\ (forall code json_data,
        remote h (requests s) req = Response code (Some json_data) ->
        ~ 400 <= code < 600 -> code <> 200 ->
        run = (Ret (VBool false),
               logged ERROR
                 (Msg ("Return status from response was requests.get was NOT OK: "
                       +:+ dumps_int code))
                 (sent req s))).
Proof.
  intros Ec req run. subst run req. rewrite squarespace_items_unfold, Ec. cbv zeta.
  repeat split.
  - intros ->. reflexivity.
  - intros code body -> Hc.
    replace (400 <=? code) with true by (symmetry; apply Z.leb_le; lia).
    replace (code <? 600) with true by (symmetry; apply Z.ltb_lt; lia).
    reflexivity.
  - intros code -> Hc.
    destruct ((400 <=? code) && (code <? 600)) eqn:E; [| reflexivity].
    apply andb_true_iff in E as [E1 E2].
    apply Z.leb_le in E1. apply Z.ltb_lt in E2. lia.
  - intros code json_data -> Hc Hn.
    destruct ((400 <=? code) && (code <? 600)) eqn:E.
    + apply andb_true_iff in E as [E1 E2].
      apply Z.leb_le in E1. apply Z.ltb_lt in E2. lia.
    + destruct (code =? 200) eqn:E2; [apply Z.eqb_eq in E2; lia | reflexivity].
Qed.

Lemma squarespace_items_first_answer_witness :
  let h := Host Sample.environment 2026 1000
                (fun _ _ => Response 204 None) (fun _ => None) Sample.text_key in
  let req := Request orders_api_endpoint (api_headers ("Bearer " +:+ "secret")) VNone in
  let run := squarespace_items h 1 orders_api_endpoint "result" VNone Sample.start in
  (remote h (requests Sample.start) req = NetworkFailure ->
   run = (Raise ConnectionError, sent req Sample.start))
  /\ (forall code body,
        remote h (requests Sample.start) req = Response code body ->
        400 <= code < 600 ->
        run = (Raise (HTTPError code), sent req Sample.start))
  /\ (forall code,
        remote h (requests Sample.start) req = Response code None ->
        ~ 400 <= code < 600 ->
        run = (Raise JSONDecodeError, sent req Sample.start))
  /\ (forall code json_data,
        remote h (requests Sample.start) req = Response code (Some json_data) ->
        ~ 400 <= code < 600 -> code <> 200 ->
        run = (Ret (VBool false),
               logged ERROR
                 (Msg ("Return status from response was requests.get was NOT OK: "
                       +:+ dumps_int code))
                 (sent req Sample.start))).
Proof.
  exact (squarespace_items_first_answer
           (Host Sample.environment 2026 1000
                 (fun _ _ => Response 204 None) (fun _ => None) Sample.text_key)
           0 orders_api_endpoint "result" VNone Sample.start "secret" eq_refl).
Defined.

Example no_content_without_body :
  let h := Host Sample.environment 2026 1000
                (fun _ _ => Response 204 None) (fun _ => None) Sample.text_key in
  fst (squarespace_orders_json h Sample.start) = Raise JSONDecodeError.
Proof. vm_compute. reflexivity. Qed.

(** X3: a value returned by [squarespace_items] is a list or [False].  A
    list comes only from a run in which every request was answered with
    status 200 and a JSON body, and nothing was logged; [False] only from a
    run of a single request whose answer had another status, logged as an
    error.  A failure on a later page never shortens the result. *)
Theorem squarespace_items_all_or_nothing (h : host) (depth : nat) :
  forall u key ps s v s',
    squarespace_items h depth u key ps s = (Ret v, s') ->
    (exists items req more,
       v = VList items
       /\ requests s' = requests s ++ req :: more
       /\ answered (remote h) (requests s) (req :: more)
       /\ log s' = log s)
    \/ (v = VBool false
        /\ exists req code body,
             requests s' = requests s ++ [req]
             /\ remote h (requests s) req = Response code body
             /\ code <> 200
             /\ log s' = log s ++
                  [(ERROR, Msg ("Return status from response was requests.get was NOT OK: "
                                +:+ dumps_int code))]).
Proof.
  induction depth as [| d IH]; intros u key ps s v s' E; [discriminate |].
  rewrite squarespace_items_unfold in E.
  destruct (environ h !! "SQUARESPACE_API_KEY") as [creds |]; [| discriminate].
  cbv zeta in E. set (req := Request u (api_headers ("Bearer " +:+ creds)) ps) in *.
  destruct (remote h (requests s) req) as [| code body |] eqn:Er;
    [discriminate | | discriminate].
  destruct ((400 <=? code) && (code <? 600)); [discriminate |].
  destruct body as [json_data |]; [| discriminate].
  destruct (code =? 200) eqn:Ecode.
  - apply Z.eqb_eq in Ecode. subst code.
    destruct (a <~ subscript json_data key ;; iterate a) as [item_list | e];
      [| discriminate].
    destruct (p <~ subscript json_data "pagination" ;; subscript p "hasNextPage")
      as [more | e]; [| discriminate].
    destruct (truthy more).
    + destruct (p <~ subscript json_data "pagination" ;; subscript p "nextPageUrl")
        as [next | e]; [| discriminate].
      destruct (squarespace_items h d next key VNone (sent req s))
        as [[rest | e] s2] eqn:Erec; [| discriminate].
      destruct (IH _ _ _ _ _ _ Erec)
        as [[items [req' [more' [-> [Eq [Ha El]]]]]] | [-> _]]; [| discriminate].
      cbn [list_add] in E. inversion E. subst. left.
      exists (item_list ++ items), req, (req' :: more'). repeat split.
      * rewrite Eq. cbn [sent requests]. now rewrite <- app_assoc.
      * eauto.
      * exact (proj1 Ha).
      * exact (proj2 Ha).
      * exact El.
    + inversion E. subst. left. exists item_list, req, []. cbn. eauto 10.
  - inversion E. subst. right. split; [reflexivity |].
    exists req, code, (Some json_data). repeat split; try reflexivity; try exact Er.
    intros ->. discriminate.
Qed.

Lemma squarespace_items_all_or_nothing_witness :
  let h := Host Sample.environment 2026 1000
                (Sample.two_pages (VInt 1) (VInt 2) (VInt 3) (VInt 4)) (fun _ => None)
                Sample.text_key in
  let s' := snd (squarespace_items h 5 orders_api_endpoint "result" VNone Sample.start) in
  (exists items req more,
     VList [VInt 1; VInt 2; VInt 3; VInt 4] = VList items
     /\ requests s' = requests Sample.start ++ req :: more
     /\ answered (remote h) (requests Sample.start) (req :: more)
     /\ log s' = log Sample.start)
  \/ (VList [VInt 1; VInt 2; VInt 3; VInt 4] = VBool false
      /\ exists req code body,
           requests s' = requests Sample.start ++ [req]
           /\ remote h (requests Sample.start) req = Response code body
           /\ code <> 200
           /\ log s' = log Sample.start ++
                [(ERROR, Msg ("Return status from response was requests.get was NOT OK: "
                              +:+ dumps_int code))]).
Proof.
  exact (squarespace_items_all_or_nothing
           (Host Sample.environment 2026 1000
                 (Sample.two_pages (VInt 1) (VInt 2) (VInt 3) (VInt 4)) (fun _ => None)
                Sample.text_key)
           5 orders_api_endpoint "result" VNone Sample.start _ _ eq_refl).
Defined.

(** X4: when a page announces a next page and the request for it is
    answered with a status that is neither 200 nor an error for
    [raise_for_status], the inner call returns [False] and the caller fails
    on [item_list + False] with [TypeError]: the records of the first page
    are lost, after one error line in the log. *)
Theorem squarespace_items_later_page_fails (h : host) (d : nat) (u : value)
    (key : string) (ps : value) (s : state) (creds : string)
    (body records pagination more next : value) (items : list value)
    (code : Z) (body' : value) :
  environ h !! "SQUARESPACE_API_KEY" = Some creds ->
  let hd := api_headers ("Bearer " +:+ creds) in
  remote h (requests s) (Request u hd ps) = Response 200 (Some body) ->
  subscript body key = Ret records ->
  iterate records = Ret items ->
  subscript body "pagination" = Ret pagination ->
  subscript pagination "hasNextPage" = Ret more ->
  truthy more = true ->
  subscript pagination "nextPageUrl" = Ret next ->
  remote h (requests s ++ [Request u hd ps]) (Request next hd VNone)
    = Response code (Some body') ->
  ~ 400 <= code < 600 ->
  code <> 200 ->
  squarespace_items h (S (S d)) u key ps s =
    (Raise TypeError,
     logged ERROR
       (Msg ("Return status from response was requests.get was NOT OK: "
             +:+ dumps_int code))
       (sent (Request next hd VNone) (sent (Request u hd ps) s))).
Proof.
  intros Ec hd E1 Ek Ei Ep Em Et En E2 Hc Hn. subst hd.
  rewrite squarespace_items_unfold, Ec. cbv zeta. rewrite E1.
  cbn [Z.leb Z.ltb Z.compare Pos.compare Pos.compare_cont andb Z.eqb Pos.eqb].
  rewrite Ek. cbn [rbind]. rewrite Ei, Ep. cbn [rbind]. rewrite Em, Et, En.
  rewrite squarespace_items_unfold, Ec. cbv zeta. cbn [sent requests]. rewrite E2.
  destruct ((400 <=? code) && (code <? 600)) eqn:E.
  - apply andb_true_iff in E as [Ea Eb].
    apply Z.leb_le in Ea. apply Z.ltb_lt in Eb. lia.
  - destruct (code =? 200) eqn:E200; [apply Z.eqb_eq in E200; lia | reflexivity].
Qed.

Lemma squarespace_items_later_page_fails_witness :
  let h := Host Sample.environment 2026 1000
             (fun past _ =>
                match past with
                | [] => Response 200 (Some (Sample.page [VInt 1] (Some "next")))
                | _ => Response 204 (Some (VDict []))
                end)
             (fun _ => None) Sample.text_key in
  let hd := api_headers ("Bearer " +:+ "secret") in
  squarespace_items h 2 orders_api_endpoint "result" VNone Sample.start =
    (Raise TypeError,
     logged ERROR
       (Msg ("Return status from response was requests.get was NOT OK: "
             +:+ dumps_int 204))
       (sent (Request (VStr "next") hd VNone)
             (sent (Request orders_api_endpoint hd VNone) Sample.start))).
Proof.
  intros h hd.
  refine (squarespace_items_later_page_fails h 0 orders_api_endpoint "result" VNone
            Sample.start "secret" (Sample.page [VInt 1] (Some "next")) (VList [VInt 1])
            _ (VBool true) (VStr "next") [VInt 1] 204 (VDict [])
            eq_refl eq_refl eq_refl eq_refl eq_refl eq_refl eq_refl eq_refl eq_refl _ _);
    lia.
Defined.

(** X5: the requests of a run of [squarespace_items], whatever its outcome:
    each carries the bearer token of the environment and the fixed
    User-Agent; the first is for the given endpoint with the given
    parameters, and every later one, for a next page, is sent without
    parameters. *)
Theorem squarespace_items_request_shape (h : host) (depth : nat) :
  forall u key ps s,
    exists more,
      requests (snd (squarespace_items h depth u key ps s)) = requests s ++ more
      /\ (forall req, In req more ->
            exists creds,
              environ h !! "SQUARESPACE_API_KEY" = Some creds
              /\ headers req =
                   VDict [("Authorization", VStr ("Bearer " +:+ creds));
                          ("User-Agent", VStr "MembershipBot")])
      /\ match more with
         | [] => True
         | first :: later =>
             url first = u /\ params first = ps
             /\ forall req, In req later -> params req = VNone
         end.
Proof.
  induction depth as [| d IH]; intros u key ps s.
  { exists []. cbn. rewrite app_nil_r. repeat split. intros req []. }
  rewrite squarespace_items_unfold.
  destruct (environ h !! "SQUARESPACE_API_KEY") as [creds |] eqn:Ec.
  2: { exists []. cbn. rewrite app_nil_r. repeat split. intros req []. }
  cbv zeta. set (req := Request u (api_headers ("Bearer " +:+ creds)) ps).
  assert (exists more,
            requests (sent req s) = requests s ++ more
            /\ (forall r, In r more ->
                  exists creds0,
                    Some creds = Some creds0
                    /\ headers r =
                         VDict [("Authorization", VStr ("Bearer " +:+ creds0));
                                ("User-Agent", VStr "MembershipBot")])
            /\ match more with
               | [] => True
               | first :: later =>
                   url first = u /\ params first = ps
                   /\ forall r, In r later -> params r = VNone
               end) as Hone.
  { exists [req]. repeat split.
    - intros r [<- | []]. exists creds. split; reflexivity.
    - intros r []. }
  destruct (remote h (requests s) req) as [| code body |]; [exact Hone | | exact Hone].
  destruct ((400 <=? code) && (code <? 600)); [exact Hone |].
  destruct body as [json_data |]; [| exact Hone].
  destruct (code =? 200); [| exact Hone].
  destruct (a <~ subscript json_data key ;; iterate a); [| exact Hone].
  destruct (p <~ subscript json_data "pagination" ;; subscript p "hasNextPage")
    as [more |]; [| exact Hone].
  destruct (truthy more); [| exact Hone].
  destruct (p <~ subscript json_data "pagination" ;; subscript p "nextPageUrl")
    as [next |]; [| exact Hone].
  destruct (IH next key VNone (sent req s)) as [later [Eq [Hh Hp]]].
  assert (requests (snd (match squarespace_items h d next key VNone (sent req s) with
                         | (Ret rest, s2) => (list_add a rest, s2)
                         | (Raise e, s2) => (Raise e, s2)
                         end))
          = requests (snd (squarespace_items h d next key VNone (sent req s)))) as Es.
  { destruct (squarespace_items h d next key VNone (sent req s)) as [[rest | e] s2];
      reflexivity. }
  rewrite Es, Eq. exists (req :: later). repeat split.
  - cbn [sent requests]. now rewrite <- app_assoc.
  - intros r [<- | Hr]; [exists creds; split; reflexivity |].
    exact (Hh r Hr).
  - intros r Hr. destruct later as [| first later']; [destruct Hr |].
    destruct Hp as [_ [Hfirst Hlater]]. destruct Hr as [<- | Hr]; auto.
Qed.

(** * Further properties of the fetch *)

Lemma squarespace_orders_json_over_items (h : host) (s : state)
    (r : result value) (s1 : state) :
  1 <= year h <= 9999 ->
  squarespace_items h (recursion_limit h) orders_api_endpoint "result"
    (VDict [("modifiedAfter", VStr (pad 4 (year h) +:+ "-01-01T00:00:00.0Z"));
            ("modifiedBefore", VStr (pad 4 (year h) +:+ "-12-30T00:00:00.0Z"))]) s
    = (r, s1) ->
  squarespace_orders_json h s =
    match r with
    | Ret v =>
        (Ret v,
         if truthy v then s1
         else logged WARNING (Msg "No orders since the beginning of the year") s1)
    | Raise (HTTPError code) =>
        (Raise (UnboundLocalError "orders"),
         logged ERROR (MsgExn "Failed to get new orders: " (HTTPError code)) s1)
    | Raise e => (Raise e, s1)
    end.
Proof.
  intros Hy E. unfold squarespace_orders_json, date_isoformat.
  replace (1 <=? year h) with true by (symmetry; apply Z.leb_le; lia).
  replace (year h <=? 9999) with true by (symmetry; apply Z.leb_le; lia).
  cbn [andb]. rewrite !bind_lift_ret.
  set (ps := request_parameters _ _).
  assert (ps = VDict [("modifiedAfter", VStr (pad 4 (year h) +:+ "-01-01T00:00:00.0Z"));
                      ("modifiedBefore", VStr (pad 4 (year h) +:+ "-12-30T00:00:00.0Z"))])
    as ->.
  { subst ps. unfold request_parameters. rewrite !append_assoc. reflexivity. }
  unfold bind at 1. unfold try_except. unfold bind at 1. rewrite E.
  destruct r as [v | e].
  - unfold bind. destruct (truthy v); reflexivity.
  - destruct e; reflexivity.
Qed.

(** X6: [squarespace_orders_json] over [squarespace_items].  A returned
    value is passed on, after a warning when it is falsy (an empty list as
    much as [False]); an [HTTPError] is logged and replaced by the
    [UnboundLocalError] of the unbound local; every other exception passes
    unchanged and unlogged. *)
Theorem squarespace_orders_json_outcomes (h : host) (s : state)
    (r : result value) (s1 : state) :
  1 <= year h <= 9999 ->
  squarespace_items h (recursion_limit h) orders_api_endpoint "result"
    (VDict [("modifiedAfter", VStr (pad 4 (year h) +:+ "-01-01T00:00:00.0Z"));
            ("modifiedBefore", VStr (pad 4 (year h) +:+ "-12-30T00:00:00.0Z"))]) s
    = (r, s1) ->
  squarespace_orders_json h s =
    match r with
    | Ret v =>
        (Ret v,
         if truthy v then s1
         else logged WARNING (Msg "No orders since the beginning of the year") s1)
    | Raise (HTTPError code) =>
        (Raise (UnboundLocalError "orders"),
         logged ERROR (MsgExn "Failed to get new orders: " (HTTPError code)) s1)
    | Raise e => (Raise e, s1)
    end.
Proof. apply squarespace_orders_json_over_items. Qed.

Lemma squarespace_orders_json_outcomes_witness :
  squarespace_orders_json (Sample.host_with []) Sample.start =
    (Ret (VList []),
     logged WARNING (Msg "No orders since the beginning of the year")
       (sent (Request orders_api_endpoint (api_headers "Bearer secret")
                (VDict [("modifiedAfter", VStr "2026-01-01T00:00:00.0Z");
                        ("modifiedBefore", VStr "2026-12-30T00:00:00.0Z")]))
             Sample.start)).
Proof.
  exact (squarespace_orders_json_outcomes (Sample.host_with []) Sample.start
           (Ret (VList [])) _ ltac:(cbn; lia) eq_refl).
Defined.

(** As [respects_with], through [try] blocks as well. *)
Ltac respects_try_with refl trans base :=
  repeat first
    [ progress (respects_with refl trans base)
    | apply (respects_try _ trans);
      [| let e := fresh "e" in
         let recover := fresh "recover" in
         let E := fresh "E" in
         intros e recover; destruct e; intros E; inversion E; subst ] ].

Lemma logging_store_untouched l m : respects store_untouched (logging l m).
Proof. intros s r s' E. inversion E. repeat split. Qed.

Lemma requests_get_store_untouched h u hd ps :
  respects store_untouched (requests_get h u hd ps).
Proof.
  intros s r s' E. unfold requests_get in E.
  destruct (remote h (requests s) (Request u hd ps)); inversion E; repeat split.
Qed.

Lemma store_untouched_refl s : store_untouched s s.
Proof. repeat split. Qed.

Lemma store_untouched_trans s1 s2 s3 :
  store_untouched s1 s2 -> store_untouched s2 s3 -> store_untouched s1 s3.
Proof. unfold store_untouched. intuition congruence. Qed.

Lemma squarespace_items_store_untouched h depth :
  forall u key ps, respects store_untouched (squarespace_items h depth u key ps).
Proof.
  induction depth as [| d IH]; intros u key ps; simpl;
    respects_with store_untouched_refl store_untouched_trans
      ltac:(first [apply IH | apply logging_store_untouched
                  | apply requests_get_store_untouched]).
Qed.

(** X7: the fetch, however it ends, leaves the table, the database
    connection and the printed output as they were. *)
Theorem squarespace_orders_json_store_untouched (h : host) (s : state) :
  table (snd (squarespace_orders_json h s)) = table s
  /\ conn (snd (squarespace_orders_json h s)) = conn s
  /\ stdout (snd (squarespace_orders_json h s)) = stdout s.
Proof.
  assert (respects store_untouched (squarespace_orders_json h)) as H.
  { unfold squarespace_orders_json.
    respects_try_with store_untouched_refl store_untouched_trans
      ltac:(first [apply squarespace_items_store_untouched
                  | apply logging_store_untouched]). }
  destruct (squarespace_orders_json h s) as [r s'] eqn:E.
  exact (H s r s' E).
Qed.

(** * Further properties of the persister *)

Lemma silent_refl s : silent s s.
Proof. repeat split. Qed.

Lemma silent_trans s1 s2 s3 : silent s1 s2 -> silent s2 s3 -> silent s1 s3.
Proof. unfold silent. intuition congruence. Qed.

Lemma appended_refl s : appended s s.
Proof. exists []. now rewrite app_nil_r. Qed.

Lemma appended_trans s1 s2 s3 : appended s1 s2 -> appended s2 s3 -> appended s1 s3.
Proof.
  intros [r1 E1] [r2 E2]. exists (r1 ++ r2). rewrite E2, E1. now rewrite <- app_assoc.
Qed.

Lemma keeps_sound_refl h s : keeps_sound h s s.
Proof. intros H. exact H. Qed.

Lemma keeps_sound_trans h s1 s2 s3 :
  keeps_sound h s1 s2 -> keeps_sound h s2 s3 -> keeps_sound h s1 s3.
Proof. unfold keeps_sound. auto. Qed.

(** The steps of the persister, one relation after the other. *)

Lemma cursor_execute_cases h values s r s' :
  cursor_execute h values s = (r, s') ->
  s' = s
  \/ (exists c, conn s = Some c /\ s' = set_conn (Some (Session (pending c) true)) s)
  \/ (exists c row k,
        conn s = Some c /\ failed c = false
        /\ store_key h row = Ret k
        /\ has_key h k (table s ++ pending c) = false
        /\ s' = set_conn (Some (Session (pending c ++ [row]) false)) s).
Proof.
  unfold cursor_execute. intros E.
  destruct (rmap adapt values) as [row |]; [| inversion E; now left].
  destruct (conn s) as [c |] eqn:Ec; [| inversion E; now left].
  destruct (failed c) eqn:Ef; [inversion E; now left |].
  destruct (store_key h row) as [k | e] eqn:En;
    [| inversion E; right; left; eauto].
  destruct (has_key h k (table s ++ pending c)) eqn:Ek;
    inversion E; [right; left; eauto | right; right].
  exists c, row, k. repeat split; assumption.
Qed.

Lemma cursor_execute_silent h values : respects silent (cursor_execute h values).
Proof.
  intros s r s' E.
  destruct (cursor_execute_cases _ _ _ _ _ E)
    as [-> | [[c [_ ->]] | [c [row [k [_ [_ [_ [_ ->]]]]]]]]]; repeat split.
Qed.

Lemma cursor_execute_appended h values :
  respects appended (cursor_execute h values).
Proof.
  intros s r s' E.
  destruct (cursor_execute_cases _ _ _ _ _ E)
    as [-> | [[c [_ ->]] | [c [row [k [_ [_ [_ [_ ->]]]]]]]]];
    exists []; cbn; now rewrite app_nil_r.
Qed.

Lemma cursor_execute_keeps_sound h values :
  respects (keeps_sound h) (cursor_execute h values).
Proof.
  intros s r s' E [Hok Hp].
  destruct (cursor_execute_cases _ _ _ _ _ E)
    as [-> | [[c [Ec ->]] | [c [row [k [Ec [Ef [Hn [Hk ->]]]]]]]]].
  - split; assumption.
  - split; [exact Hok |]. cbn. discriminate.
  - split; [exact Hok |]. cbn. intros _. rewrite Ec in Hp.
    rewrite app_assoc. apply (store_ok_snoc h _ row k); auto.
Qed.

Lemma print_silent m : respects silent (print m).
Proof. intros s r s' E. inversion E. repeat split. Qed.

Lemma print_appended m : respects appended (print m).
Proof. intros s r s' E. inversion E. exists []. cbn. now rewrite app_nil_r. Qed.

Lemma print_keeps_sound h m : respects (keeps_sound h) (print m).
Proof. intros s r s' E. inversion E. subst. exact (fun H => H). Qed.

Lemma conn_commit_silent : respects silent conn_commit.
Proof.
  intros s r s' E. unfold conn_commit in E.
  destruct (conn s) as [c |]; [destruct (failed c) |]; inversion E; repeat split.
Qed.

Lemma conn_commit_appended : respects appended conn_commit.
Proof.
  intros s r s' E. unfold conn_commit in E.
  destruct (conn s) as [c |]; [destruct (failed c) |]; inversion E;
    try (exists []; cbn; now rewrite app_nil_r).
  exists (pending c). reflexivity.
Qed.

Lemma conn_commit_keeps_sound h : respects (keeps_sound h) conn_commit.
Proof.
  intros s r s' E [Hok Hp]. unfold conn_commit in E.
  destruct (conn s) as [c |] eqn:Ec.
  - destruct (failed c) eqn:Ef; inversion E; subst; cbn.
    + split; [exact Hok |]. cbn. intros _. now rewrite app_nil_r.
    + specialize (Hp eq_refl). split; [exact Hp |]. cbn. intros _.
      now rewrite app_nil_r.
  - inversion E. subst. split; [exact Hok |]. now rewrite Ec.
Qed.

Lemma conn_close_silent : respects silent conn_close.
Proof. intros s r s' E. inversion E. repeat split. Qed.

Lemma conn_close_appended : respects appended conn_close.
Proof. intros s r s' E. inversion E. exists []. cbn. now rewrite app_nil_r. Qed.

Lemma conn_close_keeps_sound h : respects (keeps_sound h) conn_close.
Proof. intros s r s' E [Hok _]. inversion E. split; [exact Hok | exact I]. Qed.

Lemma psycopg2_connect_silent h dsn : respects silent (psycopg2_connect h dsn).
Proof.
  intros s r s' E. unfold psycopg2_connect in E.
  destruct (db_connect h dsn); inversion E; repeat split.
Qed.

Lemma psycopg2_connect_appended h dsn : respects appended (psycopg2_connect h dsn).
Proof.
  intros s r s' E. unfold psycopg2_connect in E.
  destruct (db_connect h dsn); inversion E; exists []; cbn; now rewrite app_nil_r.
Qed.

(** X8: the persister, however it ends, issues no request and calls no
    logging function: what it reports goes to the printed output and to its
    return value only. *)
Theorem insert_items_silent (h : host) (items : value) (s : state) :
  requests (snd (insert_items h items s)) = requests s
  /\ log (snd (insert_items h items s)) = log s.
Proof.
  assert (respects silent (insert_items h items)) as H.
  { unfold insert_items, insert_order, insert_line_item, cursor_close.
    respects_try_with silent_refl silent_trans
      ltac:(first [ apply psycopg2_connect_silent | apply cursor_execute_silent
                  | apply print_silent | apply conn_commit_silent
                  | apply conn_close_silent ]). }
  destruct (insert_items h items s) as [r s'] eqn:E.
  destruct (H s r s' E) as [H1 [H2 _]]. split; assumption.
Qed.

(** X9: the persister only appends: whatever the batch and however the run
    ends, the rows stored before are still there, unchanged and in place. *)
Theorem insert_items_append_only (h : host) (items : value) (s : state) :
  exists rows, table (snd (insert_items h items s)) = table s ++ rows.
Proof.
  assert (respects appended (insert_items h items)) as H.
  { unfold insert_items, insert_order, insert_line_item, cursor_close.
    respects_try_with appended_refl appended_trans
      ltac:(first [ apply psycopg2_connect_appended | apply cursor_execute_appended
                  | apply print_appended | apply conn_commit_appended
                  | apply conn_close_appended ]). }
  destruct (insert_items h items s) as [r s'] eqn:E.
  exact (H s r s' E).
Qed.

(** X10: the persister keeps the keys of the store sound: if every stored
    row has a key of its own before the run, so it is after it, whatever the
    batch (repeated ids, ids already stored, malformed records) and however
    the run ends. *)
Theorem insert_items_keeps_store_ok (h : host) (items : value) (s : state) :
  store_ok h (table s) ->
  store_ok h (table (snd (insert_items h items s))).
Proof.
  intros Hok. unfold insert_items. unfold bind at 1. unfold psycopg2_connect.
  destruct (db_connect h (db_conn_string h)); [exact Hok |].
  match goal with
  | |- store_ok _ (table (snd (?m ?s0))) =>
      assert (respects (keeps_sound h) m) as H; [| destruct (m s0) as [r s'] eqn:E;
        apply (H s0 r s' E)]
  end.
  - unfold insert_order, insert_line_item, cursor_close.
    respects_try_with (keeps_sound_refl h) (keeps_sound_trans h)
      ltac:(first [ apply cursor_execute_keeps_sound
                  | apply print_keeps_sound | apply conn_commit_keeps_sound
                  | apply conn_close_keeps_sound ]).
  - split; [exact Hok |]. cbn. intros _. now rewrite app_nil_r.
Qed.

Lemma insert_items_keeps_store_ok_witness :
  store_ok (Sample.host_with [])
    (table (snd (insert_items (Sample.host_with [])
                   (VList [Duplicate.fresh_then_stored; VInt 3])
                   Sample.after_batch))).
Proof.
  exact (insert_items_keeps_store_ok (Sample.host_with [])
           (VList [Duplicate.fresh_then_stored; VInt 3]) Sample.after_batch
           after_batch_ok).
Defined.

Lemma for_each_order_stays_open h orders :
  respects stays_open (for_each orders (insert_order h)).
Proof.
  apply (respects_for_each _ stays_open_refl stays_open_trans).
  apply insert_order_stays_open.
Qed.

(** X11: once the connection is established, [insert_items] closes it
    exactly when it returns; when it raises (a record that cannot be read, a
    value the driver cannot adapt, a row the table refuses, a batch that
    cannot be iterated) the connection is left open. *)
Theorem insert_items_connection_fate (h : host) (items : value) (s : state) :
  db_connect h (db_conn_string h) = None ->
  match fst (insert_items h items s) with
  | Ret v => v = VInt 0 /\ conn (snd (insert_items h items s)) = None
  | Raise _ => is_Some (conn (snd (insert_items h items s)))
  end.
Proof.
  intros Ed. destruct (insert_items h items s) as [r s'] eqn:E0. cbn [fst snd].
  unfold insert_items in E0. unfold bind at 1 in E0. unfold psycopg2_connect in E0.
  rewrite Ed in E0. destruct (iterate items) as [payloads | e].
  - rewrite bind_lift_ret in E0.
    destruct (for_each payloads (insert_order h) (set_conn (Some (Session [] false)) s))
      as [[[] | e] s1] eqn:E.
    + rewrite (bind_ret _ _ _ _ _ E) in E0. inversion E0. split; reflexivity.
    + rewrite (bind_raise _ _ _ _ _ E) in E0. inversion E0. subst.
      apply (for_each_order_stays_open h payloads _ _ _ E). cbn. eauto.
  - inversion E0. cbn. eauto.
Qed.

Lemma insert_items_connection_fate_witness :
  match fst (insert_items (Sample.host_with []) (VList [VInt 3]) Sample.start) with
  | Ret v =>
      v = VInt 0
      /\ conn (snd (insert_items (Sample.host_with []) (VList [VInt 3]) Sample.start)) = None
  | Raise _ =>
      is_Some (conn (snd (insert_items (Sample.host_with []) (VList [VInt 3]) Sample.start)))
  end.
Proof.
  exact (insert_items_connection_fate (Sample.host_with []) (VList [VInt 3])
           Sample.start eq_refl).
Defined.

(** [main] after the credential check, step by step. *)
Lemma main_unfold (h : host) (s : state) creds :
  environ h !! "SQUARESPACE_API_KEY" = Some creds ->
  main h s =
    match logging_basicConfig
            (upper (match environ h !! "LOGLEVEL" with
                    | Some v => v
                    | None => "INFO"
                    end)) s with
    | (Raise e, s0) => (Raise e, s0)
    | (Ret _, s0) =>
        match squarespace_orders_json h s0 with
        | (Raise e, s1) => (Raise e, s1)
        | (Ret orders, s1) =>
            match insert_items h orders s1 with
            | (Raise e, s2) => (Raise e, s2)
            | (Ret _, s2) =>
                (Ret (VDict [("statusCode", VInt 200);
                             ("body", VStr (json_dumps
                                              (VStr "Data inserted successfully!")))]),
                 s2)
            end
        end
    end.
Proof.
  intros Ec. unfold main, os_environ_get. rewrite Ec. unfold bind.
  destruct (logging_basicConfig _ s) as [[[] | e] s0]; [| reflexivity].
  destruct (squarespace_orders_json h s0) as [[orders | e] s1]; [| reflexivity].
  destruct (insert_items h orders s1) as [[v | e] s2]; reflexivity.
Qed.

(** X12: a batch that is no list, dict or string cannot be iterated:
    [insert_items] connects and then raises [TypeError], with the connection
    left open and nothing else changed.  This is what [main] runs into after
    a fetch that returned [False]. *)
Theorem insert_items_not_iterable (h : host) (items : value) (s : state) :
  db_connect h (db_conn_string h) = None ->
  (items = VNone \/ (exists b, items = VBool b) \/ (exists n, items = VInt n)) ->
  insert_items h items s = (Raise TypeError, set_conn (Some (Session [] false)) s)
  /\ forall s0 creds,
       environ h !! "SQUARESPACE_API_KEY" = Some creds ->
       root_handlers s0 = true ->
       squarespace_orders_json h s0 = (Ret items, s) ->
       main h s0 = (Raise TypeError, set_conn (Some (Session [] false)) s).
Proof.
  intros Ed Hi.
  assert (insert_items h items s
          = (Raise TypeError, set_conn (Some (Session [] false)) s)) as E.
  { unfold insert_items. unfold bind at 1. unfold psycopg2_connect. rewrite Ed.
    destruct Hi as [-> | [[b ->] | [n ->]]]; reflexivity. }
  split; [exact E |].
  intros s0 creds Ec El Ef. rewrite (main_unfold h s0 creds Ec).
  unfold logging_basicConfig. rewrite El, Ef, E. reflexivity.
Qed.

Lemma insert_items_not_iterable_witness :
  insert_items (Sample.host_with []) (VBool false) Sample.start
    = (Raise TypeError, set_conn (Some (Session [] false)) Sample.start)
  /\ forall s0 creds,
       environ (Sample.host_with []) !! "SQUARESPACE_API_KEY" = Some creds ->
       root_handlers s0 = true ->
       squarespace_orders_json (Sample.host_with []) s0 = (Ret (VBool false), Sample.start) ->
       main (Sample.host_with []) s0
         = (Raise TypeError, set_conn (Some (Session [] false)) Sample.start).
Proof.
  exact (insert_items_not_iterable (Sample.host_with []) (VBool false) Sample.start
           eq_refl (or_intror (or_introl (ex_intro _ false eq_refl)))).
Defined.

Example main_after_no_content :
  let h := Host Sample.environment 2026 1000
                (fun _ _ => Response 204 (Some (VDict []))) (fun _ => None) Sample.text_key in
  fst (main h Sample.start) = Raise TypeError
  /\ conn (snd (main h Sample.start)) = Some (Session [] false)
  /\ table (snd (main h Sample.start)) = [].
Proof. vm_compute. repeat split. Qed.

(** ** Variant options in the store *)

Lemma for_each_app {A} (body : A -> M unit) (xs ys : list A) s s1 :
  for_each xs body s = (Ret tt, s1) ->
  for_each (xs ++ ys) body s = for_each ys body s1.
Proof.
  revert s. induction xs as [| x rest IH]; intros s E; simpl in *.
  - now inversion E.
  - unfold bind in E |- *. destruct (body x s) as [[[] | e] s'] eqn:Ex.
    + now apply IH.
    + discriminate.
Qed.

Lemma insert_order_returns h payload s s' :
  insert_order h payload s = (Ret tt, s') -> conn s' = fresh_session.
Proof.
  unfold insert_order, bind. intros E.
  destruct (lift (line_items_of payload) s) as [[lis | e] s0]; [| discriminate].
  destruct (for_each lis (insert_line_item h payload) s0) as [[[] | e] s2];
    [| discriminate].
  unfold conn_commit in E. destruct (conn s2) as [c |]; [| discriminate].
  destruct (failed c); inversion E; reflexivity.
Qed.

Lemma for_each_order_returns h orders :
  forall s s',
    conn s = fresh_session ->
    for_each orders (insert_order h) s = (Ret tt, s') ->
    conn s' = fresh_session.
Proof.
  induction orders as [| o rest IH]; intros s s' Ec E; simpl in E.
  - inversion E. now subst.
  - unfold bind in E. destruct (insert_order h o s) as [[[] | e] s0] eqn:Eo;
      [| discriminate].
    exact (IH _ _ (insert_order_returns _ _ _ _ Eo) E).
Qed.

Lemma insert_order_appended h payload : respects appended (insert_order h payload).
Proof.
  unfold insert_order, insert_line_item.
  respects_try_with appended_refl appended_trans
    ltac:(first [ apply cursor_execute_appended | apply print_appended
                | apply conn_commit_appended ]).
Qed.

(** What a committed order has appended stays in the table to the end of
    the run, however the run goes on. *)
Lemma insert_items_after_order h s s1 s2 done payload todo :
  db_connect h (db_conn_string h) = None ->
  for_each done (insert_order h) (set_conn (Some (Session [] false)) s) = (Ret tt, s1) ->
  insert_order h payload s1 = (Ret tt, s2) ->
  exists more,
    table (snd (insert_items h (VList (done ++ payload :: todo)) s)) = table s2 ++ more.
Proof.
  intros Ed Edone Eo. unfold insert_items, psycopg2_connect.
  unfold bind at 1. rewrite Ed. cbn [iterate]. rewrite bind_lift_ret.
  unfold bind at 1. rewrite (for_each_app _ _ _ _ _ Edone).
  cbn [for_each]. unfold bind at 1. rewrite Eo.
  destruct (for_each todo (insert_order h) s2) as [[[] | e] s3] eqn:Et;
    exact (respects_for_each _ appended_refl appended_trans _ _
             (insert_order_appended h) _ _ _ Et).
Qed.

(** C8: a line item without [variantOptions] is no failure: its local
    [variant_options] is [None]; with the field it is the text that
    [json.dumps] makes of the field, laid out as [json_text] says.  When the
    orders before have been processed and the line items of the order yield
    rows that the table takes under new keys, the order is committed, and
    the row of the line item is in the table at the end of [insert_items],
    whatever the orders after it do, with that value in the column
    [variant_options]: NULL without the field, the text with it. *)
Theorem insert_items_variant_options (h : host) (s s1 : state)
    (done todo : list value) (payload : value) (line_items : list value)
    (rows : list row) (kvs : list (string * value)) :
  db_connect h (db_conn_string h) = None ->
  for_each done (insert_order h) (set_conn (Some (Session [] false)) s) = (Ret tt, s1) ->
  line_items_of payload = Ret line_items ->
  rmap (line_item_row payload) line_items = Ret rows ->
  fresh_rows h (table s1) rows = true ->
  In (VDict kvs) line_items ->
  variant_options_of (VDict kvs) =
    Ret (match assoc "variantOptions" kvs with
         | Some a => VStr (json_dumps a)
         | None => VNone
         end)
  /\ insert_order h payload s1
     = (Ret tt, set_store (table s1 ++ rows) fresh_session s1)
  /\ exists r,
       line_item_row payload (VDict kvs) = Ret r
       /\ In r (table (snd (insert_items h (VList (done ++ payload :: todo)) s)))
       /\ match assoc "variantOptions" kvs with
          | None => cell "variant_options" r = Some SNull
          | Some a =>
              cell "variant_options" r = Some (SText (json_dumps a))
              /\ json_text a (json_dumps a)
          end.
Proof.
  intros Ed Edone El Er Hf Hli. split; [apply variant_options_of_dict |].
  assert (conn s1 = fresh_session) as Ec.
  { apply (for_each_order_returns h done (set_conn (Some (Session [] false)) s));
      [reflexivity | exact Edone]. }
  pose proof (insert_order_clean h payload line_items rows s1 Ec El Er Hf) as Eo.
  split; [exact Eo |].
  destruct (rmap_In _ _ _ _ Er Hli) as [r [Erow Hr]].
  exists r. split; [exact Erow |]. split.
  - destruct (insert_items_after_order h s s1 _ done payload todo Ed Edone Eo)
      as [more ->].
    cbn [set_store table]. apply in_or_app. left. apply in_or_app. now right.
  - pose proof (variant_options_cell payload kvs r Erow) as Hc.
    destruct (assoc "variantOptions" kvs) as [a |]; [| exact Hc].
    split; [exact Hc | apply json_dumps_text].
Qed.

Lemma insert_items_variant_options_witness :
  let run := insert_items (Sample.host_with [])
               (VList (Options.done ++ Options.payload :: Options.todo)) Sample.start in
  (exists r,
     line_item_row Options.payload (Sample.line_item "li-3" "ABC" 5) = Ret r
     /\ In r (table (snd run))
     /\ cell "variant_options" r = Some SNull)
  /\ (exists r,
        line_item_row Options.payload Sample.with_options = Ret r
        /\ In r (table (snd run))
        /\ cell "variant_options" r = Some (SText Options.size_large))
  /\ fst run = Raise TypeError.
Proof.
  split; [| split]; [| | reflexivity].
  - exact (proj2 (proj2
             (insert_items_variant_options (Sample.host_with []) Sample.start
                Options.s1 Options.done Options.todo Options.payload
                [Sample.with_options; Sample.line_item "li-3" "ABC" 5] _ _
                eq_refl eq_refl eq_refl eq_refl eq_refl
                (or_intror (or_introl eq_refl))))).
  - destruct (insert_items_variant_options (Sample.host_with []) Sample.start
                Options.s1 Options.done Options.todo Options.payload
                [Sample.with_options; Sample.line_item "li-3" "ABC" 5] _ _
                eq_refl eq_refl eq_refl eq_refl eq_refl
                (or_introl eq_refl)) as [_ [_ [r [Er [Hin [Hc _]]]]]].
    exists r. split; [exact Er |]. split; [exact Hin | exact Hc].
Defined.

Example variant_options_present :
  json_dumps (VList [VDict [("optionName", VStr "Size"); ("value", VStr "L")]])
  = Options.size_large
  /\ exists r,
       line_item_row Options.payload Sample.with_options = Ret r
       /\ cell "variant_options" r = Some (SText Options.size_large)
       /\ cell "line_item_id" r = Some (SText "li-4").
Proof. split; [reflexivity |]. eexists. vm_compute. repeat split. Qed.

(** A variant option with a NUL character in its text: the driver refuses
    the statement with [ValueError], which [insert_items] does not catch. *)
Example variant_options_with_nul :
  let item :=
    VDict [("id", VStr "li-8"); ("variantId", VNone);
           ("variantOptions", VNone);
           ("sku", VStr (String (ascii_of_nat 0) "ABC"));
           ("productId", VStr "p-1"); ("productName", VStr "Mooring fee");
           ("quantity", VInt 1); ("unitPricePaid", Sample.money "19.99");
           ("imageUrl", VNone); ("lineItemType", VStr "SERVICE");
           ("customizations", VNone)] in
  line_item_row (Sample.order "1005" [item]) item = Raise ValueError
  /\ fst (insert_items (Sample.host_with []) (VList [Sample.order "1005" [item]])
            Sample.start) = Raise ValueError.
Proof. vm_compute. split; reflexivity. Qed.

(** ** The rows *)

Lemma rmap_length {A B} (f : A -> result B) (xs : list A) (ys : list B) :
  rmap f xs = Ret ys -> List.length ys = List.length xs.
Proof.
  revert ys. induction xs as [| a rest IH]; intros ys E; simpl in E.
  - now inversion E.
  - destruct (f a) as [b | e]; [| discriminate]. simpl in E.
    destruct (rmap f rest) as [bs | e]; [| discriminate]. simpl in E.
    inversion E. simpl. now rewrite (IH bs).
Qed.

(** The cell at a position of the row is the adapted value of the
    expression at that position of the tuple. *)
Lemma line_item_row_cell payload li r i f :
  line_item_row payload li = Ret r ->
  nth_error values_tuple i = Some f ->
  exists vo v c,
    variant_options_of li = Ret vo
    /\ eval_field payload li vo f = Ret v
    /\ adapt v = Ret c
    /\ nth_error r i = Some c.
Proof.
  intros Er Hf. destruct (line_item_row_inv _ _ _ Er) as [vo [values [Evo [Ev Ea]]]].
  destruct (rmap_nth _ _ _ i f Ev Hf) as [v [Hv Efv]].
  destruct (rmap_nth _ _ _ i v Ea Hv) as [c [Hc Eadapt]].
  exists vo, v, c. repeat split; assumption.
Qed.

Lemma cell_position (r : row) :
  forall i c, nth_error columns i = Some c -> cell c r = nth_error r i.
Proof.
  intros i c Hc.
  do 38 (destruct i as [| i]; [cbn in Hc; inversion Hc; reflexivity |]).
  destruct i; discriminate.
Qed.

(** X13: the row built for a line item has one cell per column of the
    INSERT statement, read by column name at the position of the tuple; its
    key and its [line_item_id] are both the adapted [id] of the line item;
    and the columns filled from the order hold the same cells in the rows of
    any two line items of that order. *)
Theorem line_item_row_shape (payload li : value) (r : row) :
  line_item_row payload li = Ret r ->
  List.length r = List.length columns
  /\ (forall i c, nth_error columns i = Some c -> cell c r = nth_error r i)
  /\ (exists v k,
        subscript li "id" = Ret v /\ adapt v = Ret k
        /\ row_key r = k /\ cell "id" r = Some k /\ cell "line_item_id" r = Some k)
  /\ forall li' r' i f,
       line_item_row payload li' = Ret r' ->
       nth_error values_tuple i = Some f ->
       (exists k, f = Order k) \/ (exists k sub, f = OrderSub k sub) ->
       nth_error r i = nth_error r' i.
Proof.
  intros Er. repeat split.
  - destruct (line_item_row_inv _ _ _ Er) as [vo [values [_ [Ev Ea]]]].
    rewrite (rmap_length _ _ _ Ea), (rmap_length _ _ _ Ev). reflexivity.
  - apply cell_position.
  - destruct (line_item_row_cell _ _ _ 0%nat (Item "id") Er eq_refl)
      as [vo [v [k [_ [Ev [Ea H0]]]]]].
    destruct (line_item_row_cell _ _ _ 17%nat (Item "id") Er eq_refl)
      as [vo' [v' [k' [_ [Ev' [Ea' H17]]]]]].
    cbn [eval_field] in Ev, Ev'. rewrite Ev in Ev'. inversion Ev'. subst v'.
    rewrite Ea in Ea'. inversion Ea'. subst k'.
    exists v, k. repeat split; try assumption.
    unfold row_key. change (cell "id" r) with (nth_error r 0). now rewrite H0.
  - intros li' r' i f Er' Hf Horder.
    destruct (line_item_row_cell _ _ _ i f Er Hf) as [vo [v [c [_ [Ev [Ea Hc]]]]]].
    destruct (line_item_row_cell _ _ _ i f Er' Hf) as [vo' [v' [c' [_ [Ev' [Ea' Hc']]]]]].
    rewrite Hc, Hc'.
    destruct Horder as [[k ->] | [k [sub ->]]]; cbn [eval_field] in Ev, Ev';
      rewrite Ev in Ev'; inversion Ev'; subst v'; rewrite Ea in Ea';
      now inversion Ea'.
Qed.

Lemma line_item_row_shape_witness :
  exists r,
    line_item_row (Sample.order "1001" [Sample.line_item "li-1" "ABC" 2])
                  (Sample.line_item "li-1" "ABC" 2) = Ret r
    /\ List.length r = List.length columns
    /\ (forall i c, nth_error columns i = Some c -> cell c r = nth_error r i)
    /\ (exists v k,
          subscript (Sample.line_item "li-1" "ABC" 2) "id" = Ret v /\ adapt v = Ret k
          /\ row_key r = k /\ cell "id" r = Some k /\ cell "line_item_id" r = Some k)
    /\ forall li' r' i f,
         line_item_row (Sample.order "1001" [Sample.line_item "li-1" "ABC" 2]) li' = Ret r' ->
         nth_error values_tuple i = Some f ->
         (exists k, f = Order k) \/ (exists k sub, f = OrderSub k sub) ->
         nth_error r i = nth_error r' i.
Proof.
  eexists. split; [reflexivity |].
  exact (line_item_row_shape (Sample.order "1001" [Sample.line_item "li-1" "ABC" 2])
           (Sample.line_item "li-1" "ABC" 2) _ eq_refl).
Defined.

(** ** Orders are committed whole *)

(** The inner loop from any point of a transaction, over rows that the
    table takes when their key is free: the flag of the transaction at the
    end tells whether every key was new. *)
Lemma for_each_rows h payload line_items :
  forall s p f rows,
    conn s = Some (Session p f) ->
    rmap (line_item_row payload) line_items = Ret rows ->
    List.Forall (fun r => exists k, store_key h r = Ret k) rows ->
    exists out p',
      for_each line_items (insert_line_item h payload) s =
        (Ret tt,
         State (requests s) (log s) (root_handlers s) (root_level s)
               (stdout s ++ out) (table s)
               (Some (Session p' (f || negb (fresh_rows h (table s ++ p) rows)))))
      /\ (f = false -> fresh_rows h (table s ++ p) rows = true ->
          p' = p ++ rows /\ out = [])
      /\ (f = false -> fresh_rows h (table s ++ p) rows = false -> out <> []).
Proof.
  induction line_items as [| li rest IH]; intros s p f rows Ec Er Hn.
  - simpl in Er. inversion Er. subst rows. exists [], p. split; [| split].
    + simpl. unfold ret. rewrite app_nil_r, orb_false_r.
      destruct s; simpl in *; now subst.
    + intros _ _. now rewrite app_nil_r.
    + discriminate.
  - simpl in Er. destruct (line_item_row payload li) as [r | e] eqn:Eli; [| discriminate].
    simpl in Er. destruct (rmap (line_item_row payload) rest) as [rs | e] eqn:Ers;
      [| discriminate].
    simpl in Er. inversion Er. subst rows. inversion Hn as [| ? ? [k Ek] Hrs]. subst.
    cbn [for_each]. unfold bind.
    rewrite (insert_line_item_row _ _ _ _ _ _ _ Eli Ek Ec). cbn [failed pending fresh_rows].
    rewrite Ek.
    destruct f.
    + match goal with
      | |- context [for_each rest _ ?s1] =>
          destruct (IH s1 p true rs) as [out [p' [E _]]];
            [cbn; exact Ec | reflexivity | exact Hrs |]
      end.
      rewrite E. cbn. eexists (_ :: out), p'.
      split; [| split; discriminate].
      now rewrite <- app_assoc.
    + destruct (has_key h k (table s ++ p)) eqn:Hk; cbn [negb andb orb].
      * match goal with
        | |- context [for_each rest _ ?s1] =>
            destruct (IH s1 p true rs) as [out [p' [E _]]];
              [reflexivity | reflexivity | exact Hrs |]
        end.
        rewrite E. cbn. eexists (_ :: out), p'.
        split; [| split; discriminate].
        now rewrite <- app_assoc.
      * destruct (IH (set_conn (Some (Session (p ++ [r]) false)) s) (p ++ [r]) false rs)
          as [out [p' [E [Hfresh Hstale]]]]; [reflexivity | reflexivity | exact Hrs |].
        rewrite E. cbn [set_conn requests log root_handlers root_level stdout table orb].
        rewrite <- (app_assoc (table s) p [r]).
        exists out, p'. split; [reflexivity |].
        cbn [set_conn table] in Hfresh, Hstale. split.
        -- intros _ Hf. destruct (Hfresh eq_refl Hf) as [-> ->].
           split; [| reflexivity]. now rewrite <- app_assoc.
        -- intros _ Hf. exact (Hstale eq_refl Hf).
Qed.

(** X14: an order whose line items all yield rows that the table takes
    when their key is free is committed whole or not at all.  When every
    key is new, to the store and among the rows, the rows are appended in
    the order of the line items and nothing is printed; when one key is
    taken, something is printed, the commit rolls back and the table is as
    before.  [insert_order] returns in both cases, on a fresh transaction.
    A key is what the table makes of the row, so that two ids it stores
    alike are one key. *)
Theorem insert_order_all_or_nothing (h : host) (payload : value)
    (line_items : list value) (rows : list row) (s : state) :
  conn s = Some (Session [] false) ->
  line_items_of payload = Ret line_items ->
  rmap (line_item_row payload) line_items = Ret rows ->
  List.Forall (fun r => exists k, store_key h r = Ret k) rows ->
  exists out,
    insert_order h payload s =
      (Ret tt,
       State (requests s) (log s) (root_handlers s) (root_level s)
             (stdout s ++ out)
             (if fresh_rows h (table s) rows then table s ++ rows else table s)
             (Some (Session [] false)))
    /\ (fresh_rows h (table s) rows = true -> out = [])
    /\ (fresh_rows h (table s) rows = false -> out <> []).
Proof.
  intros Ec El Er Hn. unfold insert_order. rewrite El, bind_lift_ret.
  destruct (for_each_rows h payload line_items s [] false rows Ec Er Hn)
    as [out [p' [E [Hfresh Hstale]]]].
  rewrite app_nil_r in E, Hfresh, Hstale. cbn [orb] in E.
  exists out. rewrite (bind_ret _ _ _ _ _ E). unfold conn_commit. cbn [conn failed].
  destruct (fresh_rows h (table s) rows) eqn:Hf; cbn [negb].
  - destruct (Hfresh eq_refl eq_refl) as [-> ->].
    split; [reflexivity | split; [reflexivity | discriminate]].
  - split; [reflexivity | split; [discriminate | intros _; exact (Hstale eq_refl eq_refl)]].
Qed.

Lemma insert_order_all_or_nothing_witness :
  exists rows,
    rmap (line_item_row Duplicate.fresh_then_stored)
         [Sample.line_item "li-1" "ABC" 2; Sample.line_item "li-2" "ABC" 1] = Ret rows
    /\ fresh_rows (Sample.host_with []) (table Duplicate.before) rows = false
    /\ exists out,
         insert_order (Sample.host_with []) Duplicate.fresh_then_stored
           (set_conn (Some (Session [] false)) Duplicate.before) =
           (Ret tt,
            State (requests Duplicate.before) (log Duplicate.before)
                  (root_handlers Duplicate.before) (root_level Duplicate.before)
                  (stdout Duplicate.before ++ out)
                  (table Duplicate.before)
                  (Some (Session [] false)))
         /\ out <> [].
Proof.
  eexists. split; [reflexivity |]. split; [reflexivity |].
  destruct (insert_order_all_or_nothing (Sample.host_with [])
              Duplicate.fresh_then_stored
              [Sample.line_item "li-1" "ABC" 2; Sample.line_item "li-2" "ABC" 1]
              _ (set_conn (Some (Session [] false)) Duplicate.before)
              eq_refl eq_refl eq_refl
              ltac:(repeat constructor; eexists; reflexivity)) as [out [E [_ Hout]]].
  exists out. split; [exact E | exact (Hout eq_refl)].
Defined.

(** Ids that differ as Python values and are one key of the table: the
    number 7 and the text 7. *)
Example insert_order_same_key_after_conversion :
  let h := Sample.host_with [] in
  let seven := VDict [("id", VInt 7); ("variantId", VNone); ("sku", VStr "ABC");
                      ("productId", VStr "p-1"); ("productName", VStr "Mooring fee");
                      ("quantity", VInt 1); ("unitPricePaid", Sample.money "19.99");
                      ("imageUrl", VNone); ("lineItemType", VStr "SERVICE");
                      ("customizations", VNone)] in
  let run := insert_items h
               (VList [Sample.order "1001" [Sample.line_item "7" "ABC" 1];
                       Sample.order "1002" [seven]]) Sample.start in
  fst run = Ret (VInt 0)
  /\ List.length (table (snd run)) = 1%nat
  /\ stdout (snd run) =
       [MsgExn "Caught duplicate lineitem, skipping: " UniqueViolation;
        Msg "Successful load out"].
Proof. vm_compute. repeat split. Qed.

(** ** A batch of new line items *)

Lemma fresh_rows_app h rows1 :
  forall t rows2,
    fresh_rows h t (rows1 ++ rows2)
    = fresh_rows h t rows1 && fresh_rows h (t ++ rows1) rows2.
Proof.
  induction rows1 as [| r rest IH]; intros t rows2.
  - simpl. now rewrite app_nil_r.
  - simpl. destruct (store_key h r) as [k | e]; [| reflexivity].
    rewrite IH, <- app_assoc, andb_assoc. reflexivity.
Qed.

Lemma batch_rows_clean h orders :
  forall t rows,
    batch_rows orders = Some rows ->
    fresh_rows h t rows = true ->
    clean_batch h t orders = Some (t ++ rows).
Proof.
  induction orders as [| o rest IH]; intros t rows Eb Hf; simpl in Eb |- *.
  - inversion Eb. now rewrite app_nil_r.
  - destruct (line_items_of o) as [lis | e]; [| discriminate].
    destruct (rmap (line_item_row o) lis) as [rows1 | e]; [| discriminate].
    destruct (batch_rows rest) as [rows2 |]; [| discriminate].
    inversion Eb. subst rows. rewrite fresh_rows_app in Hf.
    apply andb_true_iff in Hf as [H1 H2]. rewrite H1.
    rewrite (IH (t ++ rows1) rows2 eq_refl H2). now rewrite <- app_assoc.
Qed.

(** X15: for a batch whose line items all yield rows that the table takes
    under keys that are new, to the store and among themselves,
    [insert_items] appends exactly one row per line item, order after order
    and line item after line item, prints only its closing line, closes the
    connection and returns 0.  The keys are those of the table: ids that it
    stores alike are not new to each other. *)
Theorem insert_items_appends_rows (h : host) (s : state) (orders : list value)
    (rows : list row) :
  db_connect h (db_conn_string h) = None ->
  batch_rows orders = Some rows ->
  fresh_rows h (table s) rows = true ->
  insert_items h (VList orders) s =
    (Ret (VInt 0),
     State (requests s) (log s) (root_handlers s) (root_level s)
           (stdout s ++ [Msg "Successful load out"]) (table s ++ rows) None).
Proof.
  intros Ed Eb Hf.
  exact (insert_items_clean h s orders (table s ++ rows) Ed
           (batch_rows_clean h orders (table s) rows Eb Hf)).
Qed.

Lemma insert_items_appends_rows_witness :
  exists rows,
    batch_rows Sample.batch = Some rows
    /\ List.length rows = 3%nat
    /\ insert_items (Sample.host_with []) (VList Sample.batch) Sample.start =
         (Ret (VInt 0),
          State (requests Sample.start) (log Sample.start)
                (root_handlers Sample.start) (root_level Sample.start)
                (stdout Sample.start ++ [Msg "Successful load out"])
                (table Sample.start ++ rows) None).
Proof.
  eexists. split; [reflexivity |]. split; [reflexivity |].
  exact (insert_items_appends_rows (Sample.host_with []) Sample.start Sample.batch _
           eq_refl eq_refl eq_refl).
Defined.

(** * Further properties of the entry points *)

(** X16: fetch and persist together.  With the credential set, the logger
    configured or a known level name, an API that serves the pages of a run
    and a database that accepts the connection, when the records are orders
    whose line items yield rows that the driver can send and the table takes
    under new keys, [main] returns the response 200 and leaves the table
    with one more row per line item, in the order of the pages, after one
    request per page. *)
Theorem main_end_to_end (h : host) (s : state) (creds : string)
    (pages : list (list value)) (rows : list row) :
  environ h !! "SQUARESPACE_API_KEY" = Some creds ->
  root_handlers s = true
  \/ In (upper (match environ h !! "LOGLEVEL" with
                | Some v => v
                | None => "INFO"
                end)) level_names ->
  1 <= year h <= 9999 ->
  serves (remote h) (api_headers ("Bearer " +:+ creds)) "result" (requests s)
         orders_api_endpoint
         (VDict [("modifiedAfter", VStr (pad 4 (year h) +:+ "-01-01T00:00:00.0Z"));
                 ("modifiedBefore", VStr (pad 4 (year h) +:+ "-12-30T00:00:00.0Z"))])
         pages ->
  (List.length pages <= recursion_limit h)%nat ->
  db_connect h (db_conn_string h) = None ->
  batch_rows (concat pages) = Some rows ->
  fresh_rows h (table s) rows = true ->
  fst (main h s) =
    Ret (VDict [("statusCode", VInt 200);
                ("body", VStr (json_dumps (VStr "Data inserted successfully!")))])
  /\ table (snd (main h s)) = table s ++ rows
  /\ conn (snd (main h s)) = None
  /\ List.length (requests (snd (main h s)))
     = (List.length (requests s) + List.length pages)%nat.
Proof.
  intros Ec Hl Hy Hs Hd Edb Eb Hf.
  rewrite (main_unfold h s creds Ec).
  assert (exists s0,
            logging_basicConfig
              (upper (match environ h !! "LOGLEVEL" with
                      | Some v => v
                      | None => "INFO"
                      end)) s = (Ret tt, s0)
            /\ requests s0 = requests s /\ table s0 = table s) as [s0 [El [Er Et]]].
  { unfold logging_basicConfig. destruct (root_handlers s) eqn:Eh.
    - exists s. repeat split.
    - destruct Hl as [Hl | Hl]; [discriminate |].
      assert (existsb (String.eqb (upper (match environ h !! "LOGLEVEL" with
                                          | Some v => v
                                          | None => "INFO"
                                          end))) level_names = true) as ->.
      { apply existsb_exists. eexists. split; [exact Hl | apply String.eqb_refl]. }
      eexists. repeat split. }
  rewrite El.
  rewrite <- Er in Hs.
  destruct (squarespace_items_pages h creds "result" Ec _ _ _ _ Hs
              (recursion_limit h) s0 eq_refl Hd) as [more [Elen Erun]].
  rewrite (squarespace_orders_json_over_items h s0 _ _ Hy Erun).
  match goal with
  | |- context [insert_items h _ ?s1] =>
      assert (table s1 = table s) as Et1 by (destruct (truthy _); cbn; exact Et);
      assert (requests s1 = requests s ++ more) as Er1
        by (destruct (truthy _); cbn; now rewrite Er);
      rewrite <- Et1 in Hf;
      rewrite (insert_items_clean h s1 (concat pages) (table s1 ++ rows) Edb
                 (batch_rows_clean h (concat pages) (table s1) rows Eb Hf))
  end.
  cbn [fst snd table conn requests]. repeat split.
  - now rewrite Et1.
  - rewrite Er1, length_app, Elen. reflexivity.
Qed.

Lemma main_end_to_end_witness :
  exists rows,
    batch_rows (concat [Sample.batch]) = Some rows
    /\ fst (main (Sample.host_with Sample.batch) Sample.start) =
         Ret (VDict [("statusCode", VInt 200);
                     ("body", VStr (json_dumps (VStr "Data inserted successfully!")))])
    /\ table (snd (main (Sample.host_with Sample.batch) Sample.start))
       = table Sample.start ++ rows
    /\ conn (snd (main (Sample.host_with Sample.batch) Sample.start)) = None
    /\ List.length (requests (snd (main (Sample.host_with Sample.batch) Sample.start)))
       = (List.length (requests Sample.start) + List.length [Sample.batch])%nat.
Proof.
  eexists. split; [reflexivity |].
  refine (main_end_to_end (Sample.host_with Sample.batch) Sample.start "secret"
            [Sample.batch] _ eq_refl (or_intror _) _ _ _ eq_refl eq_refl eq_refl).
  - cbn. tauto.
  - cbn. lia.
  - eapply serves_last; reflexivity.
  - cbn. lia.
Defined.

(** X17: the exit status of the script run directly.  Whenever [main]
    returns, with the credential failure 1 or with the success response,
    which is a dict, [sys.exit] turns the value into status 1.  A control-C
    raised inside [main] is caught by the handler of the script: it is
    logged as critical and the script ends with status 0.  Every other
    exception passes the handler. *)
Theorem script_exit_status (h : host) (s : state) :
  script h s =
    match main h s with
    | (Ret _, s') => (Ret 1, s')
    | (Raise KeyboardInterrupt, s') =>
        (Ret 0, logged CRITICAL (Msg "Caught a control-C. Bailing out") s')
    | (Raise e, s') => (Raise e, s')
    end.
Proof.
  unfold script, try_except, bind. destruct (main h s) as [[v | e] s'] eqn:E.
  - destruct (main_returns h s v s' E) as [-> | ->]; reflexivity.
  - destruct e; reflexivity.
Qed.

Example script_after_success :
  fst (script (Sample.host_with Sample.batch) Sample.start) = Ret 1
  /\ List.length (table (snd (script (Sample.host_with Sample.batch) Sample.start)))
     = 3%nat.
Proof. vm_compute. split; reflexivity. Qed.

Example script_interrupted :
  fst (main Sample.host_interrupted Sample.start) = Raise KeyboardInterrupt
  /\ fst (script Sample.host_interrupted Sample.start) = Ret 0
  /\ log (snd (script Sample.host_interrupted Sample.start))
     = [(CRITICAL, Msg "Caught a control-C. Bailing out")]
  /\ table (snd (script Sample.host_interrupted Sample.start)) = [].
Proof. vm_compute. repeat split. Qed.

(** X18: with the credential set and a root logger without handlers, a
    LOGLEVEL that is no level name once in upper case makes [main] raise
    [ValueError] before any request or connection. *)
Theorem main_unknown_loglevel (h : host) (s : state) (creds name : string) :
  environ h !! "SQUARESPACE_API_KEY" = Some creds ->
  environ h !! "LOGLEVEL" = Some name ->
  root_handlers s = false ->
  existsb (String.eqb (upper name)) level_names = false ->
  main h s =
    (Raise ValueError,
     State (requests s) (log s) true (root_level s) (stdout s) (table s) (conn s)).
Proof.
  intros Ec El Eh En. rewrite (main_unfold h s creds Ec), El.
  unfold logging_basicConfig. now rewrite Eh, En.
Qed.

Lemma main_unknown_loglevel_witness :
  let h := Host (<["LOGLEVEL" := "verbose"]> Sample.environment) 2026 1000
                (Sample.one_page []) (fun _ => None) Sample.text_key in
  main h Sample.start =
    (Raise ValueError,
     State (requests Sample.start) (log Sample.start) true (root_level Sample.start)
           (stdout Sample.start) (table Sample.start) (conn Sample.start)).
Proof.
  intros h.
  exact (main_unknown_loglevel h Sample.start "secret" "verbose"
           eq_refl eq_refl eq_refl eq_refl).
Defined.

Example main_lower_case_loglevel :
  let h := Host (<["LOGLEVEL" := "debug"]> Sample.environment) 2026 1000
                (Sample.one_page []) (fun _ => None) Sample.text_key in
  root_level (snd (main h Sample.start)) = "DEBUG".
Proof. vm_compute. reflexivity. Qed.

(** * Two general forms *)

(** X19: whenever the first answer of the orders endpoint carries a status
    from 400 to 599, [squarespace_orders_json] logs the [HTTPError] and then
    raises [UnboundLocalError] for its local [orders]: after one request and
    one error line, no value reaches the caller. *)
Theorem squarespace_orders_json_error_status (h : host) (s : state)
    (creds : string) (d : nat) (code : Z) (body : option value) :
  1 <= year h <= 9999 ->
  environ h !! "SQUARESPACE_API_KEY" = Some creds ->
  recursion_limit h = S d ->
  (forall ps,
     remote h (requests s)
       (Request orders_api_endpoint (api_headers ("Bearer " +:+ creds)) ps)
     = Response code body) ->
  400 <= code < 600 ->
  exists req,
    squarespace_orders_json h s =
      (Raise (UnboundLocalError "orders"),
       logged ERROR (MsgExn "Failed to get new orders: " (HTTPError code)) (sent req s))
    /\ url req = VStr "https://api.squarespace.com/1.0/commerce/orders".
Proof.
  intros Hy Ec Ed Er Hc. eexists. split.
  - erewrite squarespace_orders_json_over_items; [| exact Hy |].
    2: { rewrite Ed, squarespace_items_unfold, Ec. cbv zeta. rewrite Er.
         replace (400 <=? code) with true by (symmetry; apply Z.leb_le; lia).
         replace (code <? 600) with true by (symmetry; apply Z.ltb_lt; lia).
         reflexivity. }
    reflexivity.
  - reflexivity.
Qed.

Lemma squarespace_orders_json_error_status_witness :
  exists req,
    squarespace_orders_json Sample.host_not_found Sample.start =
      (Raise (UnboundLocalError "orders"),
       logged ERROR (MsgExn "Failed to get new orders: " (HTTPError 404))
         (sent req Sample.start))
    /\ url req = VStr "https://api.squarespace.com/1.0/commerce/orders".
Proof.
  exact (squarespace_orders_json_error_status Sample.host_not_found Sample.start
           "secret" 999 404 None ltac:(cbn; lia) eq_refl eq_refl
           (fun _ => eq_refl) ltac:(lia)).
Defined.

(** X20: inserting a batch twice.  From a store in which every row has a
    key of its own, when the line items of the batch yield rows that the
    table takes under new keys, both runs return 0, the second changes
    nothing in the table, which holds each key once, and prints, before its
    closing line, one line per line item: in each order the first as a
    duplicate that is skipped, the later ones as errors of the transaction. *)
Theorem insert_items_run_twice (h : host) (s : state) (orders : list value)
    (rows : list row) :
  db_connect h (db_conn_string h) = None ->
  store_ok h (table s) ->
  batch_rows orders = Some rows ->
  fresh_rows h (table s) rows = true ->
  exists s1 s2,
    insert_items h (VList orders) s = (Ret (VInt 0), s1)
    /\ insert_items h (VList orders) s1 = (Ret (VInt 0), s2)
    /\ table s1 = table s ++ rows
    /\ table s2 = table s ++ rows
    /\ store_ok h (table s ++ rows)
    /\ stdout s2 =
         stdout s ++ [Msg "Successful load out"] ++ rerun_output orders
         ++ [Msg "Successful load out"].
Proof.
  intros Ed Hok Eb Hf.
  exact (insert_items_twice h s orders (table s ++ rows) Ed Hok
           (batch_rows_clean h orders (table s) rows Eb Hf)).
Qed.

Lemma insert_items_run_twice_witness :
  exists rows,
    batch_rows Sample.batch = Some rows
    /\ exists s1 s2,
         insert_items (Sample.host_with []) (VList Sample.batch) Sample.start
           = (Ret (VInt 0), s1)
         /\ insert_items (Sample.host_with []) (VList Sample.batch) s1
           = (Ret (VInt 0), s2)
         /\ table s1 = table Sample.start ++ rows
         /\ table s2 = table Sample.start ++ rows
         /\ store_ok (Sample.host_with []) (table Sample.start ++ rows)
         /\ stdout s2 =
              stdout Sample.start ++ [Msg "Successful load out"]
              ++ rerun_output Sample.batch ++ [Msg "Successful load out"].
Proof.
  eexists. split; [reflexivity |].
  refine (insert_items_run_twice (Sample.host_with []) Sample.start Sample.batch _
            eq_refl _ eq_refl eq_refl).
  intros r [].
Defined.
